(** * react-native-media-cache: the [useCache] hook (src/useCache.tsx)

    The hook's asynchronous functions are embedded as programs over the
    operations of the host platform (expo-file-system, the AsyncLock).
    A program is a finite tree of operations; it is run against a store
    by a sequential interpreter, and two programs are interleaved by a
    scheduler that switches task at each awaited operation. *)

From stdpp Require Import base option list strings gmap relations.
From Stdlib Require Import ZArith Ascii String.

Local Open Scope string_scope.

(** ** Data model *)

(** [type FileType = "image" | "video"] *)
Inductive FileType : Type := image | video.

(** [CacheOptions]: three optional fields. *)
Record CacheOptions : Type := mkCacheOptions {
  customName : option string;
  fileType : option FileType;
  authToken : option string
}.

(** The default argument [options: CacheOptions = {}]. *)
Definition noOptions : CacheOptions :=
  {| customName := None; fileType := None; authToken := None |}.

(** What [FileSystem.getInfoAsync] resolves with. *)
Record FileInfo : Type := mkFileInfo {
  info_exists : bool;
  info_isDirectory : bool;
  info_uri : string;
  info_modificationTime : N;
  info_size : N
}.

(** The object literal [getCache] returns on a hit. *)
Record CacheEntry : Type := mkCacheEntry {
  uri : string;
  modificationTime : N;
  size : N
}.

(** What [downloadResumable.downloadAsync()] resolves with (when it is not
    [undefined]). *)
Record DownloadResult : Type := mkDownloadResult {
  dl_uri : string;
  dl_status : N
}.

(** A request header object: a JS object used as a map. *)
Abbreviation Headers := (gmap string string).

(** A rejected promise or thrown exception carries an error value. *)
Definition Error : Type := string.

Inductive Result (A : Type) : Type :=
| Ok (a : A)
| Err (e : Error).
Arguments Ok {A} a.
Arguments Err {A} e.

(** ** Operations of the platform and programs over them *)

(** The awaited platform calls of the file, indexed by what they resolve
    with. [Acquire] and [Release] are the two halves of
    [lock.acquire(key, fn)]. *)
Inductive Op : Type -> Type :=
| GetInfo (path : string) : Op FileInfo
| MakeDirectory (path : string) : Op unit
| Copy (from to : string) : Op unit
| Download (url dest : string) (headers : Headers) : Op (option DownloadResult)
| Delete (path : string) : Op unit
| Acquire (key : string) : Op unit
| Release (key : string) : Op unit.

(** An asynchronous computation: it resolves ([Ret]), rejects ([Throw]) or
    awaits an operation and continues with its outcome. *)
Inductive Prog (A : Type) : Type :=
| Ret (a : A)
| Throw (e : Error)
| Vis {X : Type} (o : Op X) (k : Result X -> Prog A).
Arguments Ret {A} a.
Arguments Throw {A} e.
Arguments Vis {A X} o k.

Fixpoint bind {A B : Type} (m : Prog A) (f : A -> Prog B) : Prog B :=
  match m with
  | Ret a => f a
  | Throw e => Throw e
  | Vis o k => Vis o (fun r => bind (k r) f)
  end.

#[export] Instance Prog_ret : MRet Prog := fun _ a => Ret a.
#[export] Instance Prog_bind : MBind Prog := fun _ _ f m => bind m f.

(** [await op]: a rejected operation throws at the await. *)
Definition await {X : Type} (o : Op X) : Prog X :=
  Vis o (fun r => match r with Ok x => Ret x | Err e => Throw e end).

(** [try { body } catch (e) { handler e }], and [promise.catch(handler)]. *)
Fixpoint try_catch {A : Type} (body : Prog A) (handler : Error -> Prog A) : Prog A :=
  match body with
  | Ret a => Ret a
  | Throw e => handler e
  | Vis o k => Vis o (fun r => try_catch (k r) handler)
  end.

(** An [async] function resolves its promise with the value it returns. When
    that value is itself a promise ([return p] without [await]) the outer
    promise adopts it after the function body, and so after any enclosing
    [try], has been left. *)
Fixpoint adopt {A : Type} (m : Prog (Prog A)) : Prog A :=
  match m with
  | Ret p => p
  | Throw e => Throw e
  | Vis o k => Vis o (fun r => adopt (k r))
  end.

(** The two forms of [return] in an [async] function body. *)
Definition return_value {A : Type} (v : A) : Prog (Prog A) := Ret (Ret v).
Definition return_promise {A : Type} (p : Prog A) : Prog (Prog A) := Ret p.

(** AsyncLock releases the key when the callback's promise settles, on
    success and on failure alike. *)
Fixpoint release_after {A : Type} (key : string) (fn : Prog A) : Prog A :=
  match fn with
  | Ret a => Vis (Release key) (fun _ => Ret a)
  | Throw e => Vis (Release key) (fun _ => Throw e)
  | Vis o k => Vis o (fun r => release_after key (k r))
  end.

(** [lock.acquire(key, fn)] *)
Definition lock_acquire {A : Type} (key : string) (fn : Prog A) : Prog A :=
  Vis (Acquire key) (fun _ => release_after key fn).

(** ** The host: pure services the hook calls *)

Class Host : Type := {
  (** [FileSystem.cacheDirectory] *)
  cacheDirectory : string;
  (** [Crypto.digestStringAsync(Crypto.CryptoDigestAlgorithm.SHA256, s)] *)
  digestStringAsync : string -> string;
  (** [Linking.parse(url).scheme], for the identifiers [Linking.parse]
      accepts: it is taken as a total function here. *)
  Linking_parse_scheme : string -> option string
}.

(** JavaScript truthiness of an optional string: [undefined] and the empty
    string are falsy. *)
Definition truthy (s : option string) : bool :=
  match s with
  | None => false
  | Some s => negb (String.eqb s "")
  end.

(** [function APIHeader(token?: string)] *)
Definition APIHeader (token : option string) : Headers :=
  let header : Headers :=
    <["Content-Type" := "application/json"]>
      (<["Accept" := "application/json"]> ∅) in
  if truthy token
  then <["Authorization" := "Bearer " +:+ default "" token]> header
  else header.

Section useCache.
Context `{host : Host}.

Definition cacheDirName : string := "cache".

(** [_isCacheDirectoryExists] *)
Definition _isCacheDirectoryExists : Prog bool :=
  cacheDir ← await (GetInfo (cacheDirectory +:+ cacheDirName));
  mret (info_isDirectory cacheDir && info_exists cacheDir).

(** [_createCacheDirectory] *)
Definition _createCacheDirectory : Prog unit :=
  await (MakeDirectory (cacheDirectory +:+ cacheDirName)).

(** The [init] closure of the mount effect. *)
Definition init : Prog unit :=
  try_catch
    (present ← _isCacheDirectoryExists;
     if negb present then _createCacheDirectory else mret tt)
    (fun e => mret tt).

(** [_getFilename]: the digest is a pure function of its argument, so the
    await on it is not an operation of the program. *)
Definition _getFilename (url : string) (fileType : option FileType) : string :=
  let digestUrl := digestStringAsync url in
  match fileType with
  | Some ft =>
      let fileExt := match ft with image => "jpg" | video => "mp4" end in
      digestUrl +:+ "." +:+ fileExt
  | None => digestUrl
  end.

(** [_isRemoteUrl] *)
Definition _isRemoteUrl (url : string) : bool :=
  let scheme := Linking_parse_scheme url in
  bool_decide (scheme = Some "http") || bool_decide (scheme = Some "https").

(** [getCache] *)
Definition getCache (name : string) (fileType : option FileType)
  : Prog (option CacheEntry) :=
  let filename := _getFilename name fileType in
  fileInfo ← await (GetInfo (cacheDirectory +:+ (cacheDirName +:+ "/") +:+ filename));
  if info_exists fileInfo
  then mret (Some {| uri := info_uri fileInfo;
                     modificationTime := info_modificationTime fileInfo;
                     size := info_size fileInfo |})
  else mret None.

(** The callback [_cacheRemoteItem] passes to [lock.acquire]. *)
Definition _cacheRemoteItem_locked (url : string) (fileType : option FileType)
    (authToken : option string) (filename : string) : Prog (option string) :=
  existingCache ← getCache url fileType;
  match existingCache with
  | None =>
      result ← await (Download url
                        (cacheDirectory +:+ (cacheDirName +:+ "/") +:+ filename)
                        (APIHeader authToken));
      match result with
      | Some result => mret (Some (dl_uri result))
      | None => mret None
      end
  | Some _ => mret None
  end.

(** [_cacheRemoteItem] *)
Definition _cacheRemoteItem (url : string) (options : CacheOptions)
  : Prog (option string) :=
  let filename := _getFilename (default url (customName options)) (fileType options) in
  try_catch
    (lock_acquire url
       (_cacheRemoteItem_locked url (fileType options) (authToken options) filename))
    (fun err => mret None).

(** [_cacheLocalItem] *)
Definition _cacheLocalItem (url : string) (options : CacheOptions)
  : Prog (option string) :=
  let filename := _getFilename (default url (customName options)) (fileType options) in
  _ ← await (Copy url (cacheDirectory +:+ (cacheDirName +:+ "/") +:+ filename));
  result ← getCache (cacheDirectory +:+ (cacheDirName +:+ "/") +:+ filename)
                    (fileType options);
  match result with
  | Some result => mret (Some (uri result))
  | None => mret None
  end.

(** [cacheItem]: the two delegating [return]s hand back the callee's
    promise without awaiting it. *)
Definition cacheItem (url : string) (options : CacheOptions)
  : Prog (option string) :=
  adopt
    (try_catch
       (existingCache ← getCache url (fileType options);
        match existingCache with
        | Some existingCache => return_value (Some (uri existingCache))
        | None =>
            if _isRemoteUrl url
            then return_promise (_cacheRemoteItem url options)
            else return_promise (_cacheLocalItem url options)
        end)
       (fun e => return_value None)).

(** [clearCache] *)
Definition clearCache : Prog unit :=
  await (Delete (cacheDirectory +:+ cacheDirName)).

End useCache.

(** The path of a file of the cache namespace. *)
Definition storagePath `{host : Host} (filename : string) : string :=
  cacheDirectory +:+ (cacheDirName +:+ "/") +:+ filename.

(** The extension a type tag maps to, with its dot; nothing for no tag. *)
Definition extensionOf (fileType : option FileType) : string :=
  match fileType with
  | Some image => ".jpg"
  | Some video => ".mp4"
  | None => ""
  end.

(** ** The store: stateful services, and the sequential interpreter *)

(** expo-file-system over a state of type [World]. Every call may reject;
    [getInfoAsync] is a query and leaves the state alone. [downloadAsync]
    stands for [createDownloadResumable(url, dest, {headers}).downloadAsync()]. *)
Class Store (World : Type) : Type := {
  getInfoAsync : string -> World -> Result FileInfo;
  makeDirectoryAsync : string -> World -> Result unit * World;
  copyAsync : string -> string -> World -> Result unit * World;
  downloadAsync :
    string -> string -> Headers -> World -> Result (option DownloadResult) * World;
  deleteAsync : string -> World -> Result unit * World
}.

(** An operation that was issued. *)
Inductive Event : Type :=
| Ev {X : Type} (o : Op X).

Definition downloads (tr : list Event) : list (string * string * Headers) :=
  omap (fun ev =>
          match ev with
          | Ev (Download url dest headers) => Some (url, dest, headers)
          | Ev _ => None
          end) tr.

Definition copies (tr : list Event) : list (string * string) :=
  omap (fun ev =>
          match ev with
          | Ev (Copy from to) => Some (from, to)
          | Ev _ => None
          end) tr.

Definition queries (tr : list Event) : list string :=
  omap (fun ev =>
          match ev with
          | Ev (GetInfo path) => Some path
          | Ev _ => None
          end) tr.

Record Outcome (World A : Type) : Type := mkOutcome {
  result : Result A;
  store : World;
  trace : list Event
}.
Arguments mkOutcome {World A} result store trace.
Arguments result {World A} o.
Arguments store {World A} o.
Arguments trace {World A} o.

Section Sequential.
Context `{host : Host} {World : Type} `{fs : Store World}.

(** One operation against the store. With a single caller the lock is
    free, so acquiring and releasing succeed at once. *)
Definition perform {X : Type} (o : Op X) (w : World) : Result X * World :=
  match o in Op X return Result X * World with
  | GetInfo path => (getInfoAsync path w, w)
  | MakeDirectory path => makeDirectoryAsync path w
  | Copy from to => copyAsync from to w
  | Download url dest headers => downloadAsync url dest headers w
  | Delete path => deleteAsync path w
  | Acquire key => (Ok tt, w)
  | Release key => (Ok tt, w)
  end.

(** One call running alone, from start to settlement. *)
Fixpoint run {A : Type} (p : Prog A) (w : World) : Outcome World A :=
  match p with
  | Ret a => mkOutcome (Ok a) w []
  | Throw e => mkOutcome (Err e) w []
  | Vis o k =>
      let '(r, w') := perform o w in
      let out := run (k r) w' in
      mkOutcome (result out) (store out) (Ev o :: trace out)
  end.

(** The entry [getCache] builds from a file's info. *)
Definition entryOf (fileInfo : FileInfo) : CacheEntry :=
  {| uri := info_uri fileInfo;
     modificationTime := info_modificationTime fileInfo;
     size := info_size fileInfo |}.

(** What [getCache] resolves with, read off the store. *)
Definition lookupCache (name : string) (ft : option FileType) (w : World)
  : Result (option CacheEntry) :=
  match getInfoAsync (storagePath (_getFilename name ft)) w with
  | Ok fileInfo => Ok (if info_exists fileInfo then Some (entryOf fileInfo) else None)
  | Err e => Err e
  end.

(** What a download into [filename] resolves the locked callback with. *)
Definition downloadedUri (r : Result (option DownloadResult)) : Result (option string) :=
  match r with
  | Ok (Some d) => Ok (Some (dl_uri d))
  | Ok None => Ok None
  | Err e => Err e
  end.

(** [.catch] turns a rejection of the locked callback into [undefined]. *)
Definition caught (r : Result (option string)) : Result (option string) :=
  match r with
  | Ok v => Ok v
  | Err _ => Ok None
  end.

End Sequential.

(** ** Concurrent callers *)

(** Calls in flight share the store and the lock. A task gives up control
    only at an awaited operation, so a step of the pool is one operation of
    one task, carried out in full. *)
Record Config (World A : Type) : Type := mkConfig {
  cfg_store : World;
  cfg_held : list string;
  cfg_trace : list Event;
  cfg_tasks : list (Prog A)
}.
Arguments mkConfig {World A} cfg_store cfg_held cfg_trace cfg_tasks.
Arguments cfg_store {World A} c.
Arguments cfg_held {World A} c.
Arguments cfg_trace {World A} c.
Arguments cfg_tasks {World A} c.

(** A task asking for a key that is held waits. *)
Definition enabled {X : Type} (o : Op X) (held : list string) : bool :=
  match o with
  | Acquire key => negb (existsb (String.eqb key) held)
  | _ => true
  end.

Definition locks_after {X : Type} (o : Op X) (held : list string) : list string :=
  match o with
  | Acquire key => key :: held
  | Release key => List.filter (fun k => negb (String.eqb key k)) held
  | _ => held
  end.

Definition settled {A : Type} (t : Prog A) : bool :=
  match t with
  | Vis _ _ => false
  | _ => true
  end.

Section Concurrent.
Context {World : Type} `{fs : Store World} {A : Type}.

(** Task [i] carries out its next operation, if it has one and may. *)
Definition step_at (i : nat) (c : Config World A) : option (Config World A) :=
  match cfg_tasks c !! i with
  | Some (Vis o k) =>
      if enabled o (cfg_held c) then
        let '(r, w') := perform o (cfg_store c) in
        Some (mkConfig w' (locks_after o (cfg_held c)) (cfg_trace c ++ [Ev o])
                (<[i := k r]> (cfg_tasks c)))
      else None
  | _ => None
  end.

Definition step (c c' : Config World A) : Prop :=
  exists i, step_at i c = Some c'.

(** All tasks have settled. *)
Definition finished (c : Config World A) : bool :=
  forallb settled (cfg_tasks c).

(** The calls start together on store [w], no key held. *)
Definition concurrently (calls : list (Prog A)) (w : World) : Config World A :=
  mkConfig w [] [] calls.

(** Follow a schedule: the task named next moves if it can. *)
Definition run_schedule (schedule : list nat) (c : Config World A) : Config World A :=
  foldl (fun c i => default c (step_at i c)) c schedule.

Definition successors (c : Config World A) : list (Config World A) :=
  omap (fun i => step_at i c) (seq 0 (List.length (cfg_tasks c))).

(** The configurations exactly [n] steps away, one for each way there. *)
Fixpoint layer (n : nat) (c : Config World A) : list (Config World A) :=
  match n with
  | O => [c]
  | S n => c' ← layer n c; successors c'
  end.

End Concurrent.

(** ** A reference platform

    The hook is verified against every [Host] and [Store]. This instance is
    the one the examples run on: SHA-256 for the digest, a URL scheme
    reader, and a device made of a disk and the remote servers. *)

Module SHA256.

Local Open Scope N_scope.

(** Trial division, enough for the small primes the constants come from. *)
Definition is_prime (n : nat) : bool :=
  (2 <=? N.of_nat n) &&
  forallb (fun d => negb (N.of_nat n mod N.of_nat d =? 0)) (seq 2 (n - 2)).

Definition primes : list N :=
  N.of_nat <$> List.filter is_prime (seq 2 310).

(** The integer cube root, found bit by bit from bit [k - 1] down. *)
Fixpoint cube_root (k : nat) (n root : N) : N :=
  match k with
  | O => root
  | S k =>
      let next := root + 2 ^ N.of_nat k in
      if next * next * next <=? n then cube_root k n next else cube_root k n root
  end.

(** FIPS 180-4, section 4.2.2: the first 32 bits of the fractional parts of
    the cube roots of the first 64 primes. *)
Definition K : list N :=
  Eval vm_compute in
    (fun p => cube_root 36 (p * 2 ^ 96) 0 mod 2 ^ 32) <$> primes.

(** Section 5.3.3: the same of the square roots of the first 8 primes. *)
Definition H0 : list N :=
  Eval vm_compute in
    (fun p => N.sqrt (p * 2 ^ 64) mod 2 ^ 32) <$> take 8 primes.

Definition add32 (a b : N) : N := (a + b) mod 2 ^ 32.
Definition rotr (n x : N) : N :=
  N.lor (N.shiftr x n) ((N.shiftl x (32 - n)) mod 2 ^ 32).
Definition shr (n x : N) : N := N.shiftr x n.
Definition not32 (x : N) : N := N.lxor x 0xffffffff.

Definition Ch (x y z : N) : N := N.lxor (N.land x y) (N.land (not32 x) z).
Definition Maj (x y z : N) : N :=
  N.lxor (N.lxor (N.land x y) (N.land x z)) (N.land y z).
Definition Sigma0 (x : N) : N := N.lxor (N.lxor (rotr 2 x) (rotr 13 x)) (rotr 22 x).
Definition Sigma1 (x : N) : N := N.lxor (N.lxor (rotr 6 x) (rotr 11 x)) (rotr 25 x).
Definition sigma0 (x : N) : N := N.lxor (N.lxor (rotr 7 x) (rotr 18 x)) (shr 3 x).
Definition sigma1 (x : N) : N := N.lxor (N.lxor (rotr 17 x) (rotr 19 x)) (shr 10 x).

Fixpoint bytes_of (s : string) : list N :=
  match s with
  | EmptyString => []
  | String c s => N_of_ascii c :: bytes_of s
  end.

(** [n] as [k] big-endian bytes. *)
Fixpoint big_endian (k : nat) (n : N) : list N :=
  match k with
  | O => []
  | S k => (N.shiftr n (8 * N.of_nat k)) mod 256 :: big_endian k n
  end.

(** Section 5.1.1: a one bit, zeros up to 56 modulo 64, the bit length. *)
Definition pad (msg : list N) : list N :=
  let len := N.of_nat (List.length msg) in
  msg ++ [0x80] ++ replicate (N.to_nat ((119 - len mod 64) mod 64)) 0
      ++ big_endian 8 (8 * len).

Fixpoint words_of (fuel : nat) (bytes : list N) : list N :=
  match fuel, bytes with
  | S fuel, a :: b :: c :: d :: rest =>
      (N.shiftl a 24 + N.shiftl b 16 + N.shiftl c 8 + d) :: words_of fuel rest
  | _, _ => []
  end.

Fixpoint blocks_of (fuel : nat) (words : list N) : list (list N) :=
  match fuel, words with
  | _, [] => []
  | O, _ => []
  | S fuel, _ => take 16 words :: blocks_of fuel (drop 16 words)
  end.

(** Section 6.2.2, step 1; the schedule is kept latest word first. *)
Fixpoint schedule (n : nat) (rev_w : list N) : list N :=
  match n with
  | O => rev_w
  | S n =>
      let w := add32 (add32 (sigma1 (nth 1 rev_w 0)) (nth 6 rev_w 0))
                 (add32 (sigma0 (nth 14 rev_w 0)) (nth 15 rev_w 0)) in
      schedule n (w :: rev_w)
  end.

(** Step 3, one round on the working variables [a; b; c; d; e; f; g; h]. *)
Definition round (vars : list N) (kw : N * N) : list N :=
  match vars with
  | [a; b; c; d; e; f; g; h] =>
      let T1 := add32 (add32 (add32 h (Sigma1 e)) (add32 (Ch e f g) kw.1)) kw.2 in
      let T2 := add32 (Sigma0 a) (Maj a b c) in
      [add32 T1 T2; a; b; c; add32 d T1; e; f; g]
  | _ => vars
  end.

(** Steps 2 to 4 for one block. *)
Definition compress (hash block : list N) : list N :=
  let W := rev (schedule 48 (rev block)) in
  zip_with add32 hash (foldl round hash (zip K W)).

Definition hex_digit (n : N) : ascii :=
  nth (N.to_nat n)
    ["0"; "1"; "2"; "3"; "4"; "5"; "6"; "7"; "8"; "9"; "a"; "b"; "c"; "d"; "e"; "f"]%char
    "0"%char.

Fixpoint hex (k : nat) (n : N) : string :=
  match k with
  | O => EmptyString
  | S k => String (hex_digit ((N.shiftr n (4 * N.of_nat k)) mod 16)) (hex k n)
  end.

(** The digest of the bytes of [s], as 64 lower-case hex digits. *)
Definition digest (s : string) : string :=
  let bytes := pad (bytes_of s) in
  let words := words_of (List.length bytes) bytes in
  foldr (fun word rest => hex 8 word +:+ rest)%string EmptyString
    (foldl compress H0 (blocks_of (List.length words) words)).

End SHA256.

Module Reference.

Definition scheme_char (c : ascii) : bool :=
  let n := N_of_ascii c in
  ((97 <=? n) && (n <=? 122) || (65 <=? n) && (n <=? 90) ||
   (48 <=? n) && (n <=? 57) || (n =? 43) || (n =? 45) || (n =? 46))%N.

Definition lower_case (c : ascii) : ascii :=
  let n := N_of_ascii c in
  if ((65 <=? n) && (n <=? 90))%N then ascii_of_N (n + 32) else c.

(** The scheme characters up to the first colon, if there is one, in lower
    case. *)
Fixpoint before_colon (s : string) : option string :=
  match s with
  | EmptyString => None
  | String c rest =>
      if Ascii.eqb c ":" then Some EmptyString
      else if scheme_char c then String (lower_case c) <$> before_colon rest
      else None
  end.

Definition parse_scheme (url : string) : option string :=
  match before_colon url with
  | Some EmptyString => None
  | scheme => scheme
  end.

#[export] Instance host : Host := {|
  cacheDirectory := "file:///data/user/0/app/cache/";
  digestStringAsync := SHA256.digest;
  Linking_parse_scheme := parse_scheme
|}.

Inductive Node : Type :=
| File (size mtime : N)
| Directory.

(** A device: its disk, the remote resources that can be fetched (by URL,
    with their length), and a clock. *)
Record Device : Type := mkDevice {
  disk : gmap string Node;
  web : gmap string N;
  clock : N
}.

Definition infoOf (path : string) (d : Device) : FileInfo :=
  match disk d !! path with
  | Some (File size mtime) => mkFileInfo true false path mtime size
  | Some Directory => mkFileInfo true true path 0 0
  | None => mkFileInfo false false path 0 0
  end.

(** [path] itself or something below it. *)
Definition under (path name : string) : bool :=
  String.eqb path name || String.prefix (path +:+ "/") name.

(** The file-system calls as expo documents them: copying needs its source,
    a download needs the server to answer, and deleting or creating fails on
    what is not there or already there. *)
#[export] Instance device_store : Store Device := {|
  getInfoAsync path d := Ok (infoOf path d);
  makeDirectoryAsync path d :=
    match disk d !! path with
    | Some _ => (Err "Directory could not be created: it already exists", d)
    | None => (Ok tt, mkDevice (<[path := Directory]> (disk d)) (web d) (clock d + 1))
    end;
  copyAsync from to d :=
    match disk d !! from with
    | Some node => (Ok tt, mkDevice (<[to := node]> (disk d)) (web d) (clock d + 1))
    | None => (Err "File could not be copied because it could not be found", d)
    end;
  downloadAsync url dest headers d :=
    match web d !! url with
    | Some length =>
        (Ok (Some (mkDownloadResult dest 200)),
         mkDevice (<[dest := File length (clock d)]> (disk d)) (web d) (clock d + 1))
    | None => (Err "Unable to resolve host", d)
    end;
  deleteAsync path d :=
    match disk d !! path with
    | Some _ =>
        (Ok tt,
         mkDevice (filter (fun entry => negb (under path entry.1) = true) (disk d))
           (web d) (clock d + 1))
    | None => (Err "File could not be deleted because it could not be found", d)
    end
|}.

(** A device just after the hook mounted: the cache directory is there and
    empty, a photo sits in the gallery, one server answers. *)
Definition fresh : Device := {|
  disk := <["file:///data/user/0/app/cache/cache" := Directory]>
            (<["/storage/gallery/photo.jpg" := File 2048 7]> ∅);
  web := <["https://example.com/a.jpg" := 4096%N]> ∅;
  clock := 10
|}.

(** The same device before the cache directory was made. *)
Definition bare : Device := {|
  disk := <["/storage/gallery/photo.jpg" := File 2048 7]> ∅;
  web := <["https://example.com/a.jpg" := 4096%N]> ∅;
  clock := 10
|}.

(** The calls of the examples. *)
Definition remoteUrl : string := "https://example.com/a.jpg".
Definition localUrl : string := "/storage/gallery/photo.jpg".
Definition missingUrl : string := "/storage/gallery/missing.jpg".

Definition imageOptions : CacheOptions :=
  {| customName := None; fileType := Some image; authToken := None |}.
Definition namedOptions : CacheOptions :=
  {| customName := Some "hero"; fileType := Some image; authToken := Some "s3cret" |}.
Definition emptyTokenOptions : CacheOptions :=
  {| customName := None; fileType := Some image; authToken := Some "" |}.

(** [fresh] after [cacheItem(remoteUrl, {fileType: "image"})], and the entry
    that call left. *)
Definition warmed : Device := store (run (cacheItem remoteUrl imageOptions) fresh).
Definition warmedEntry : CacheEntry :=
  {| uri := storagePath (_getFilename remoteUrl (Some image));
     modificationTime := 10;
     size := 4096 |}.

End Reference.

(** ** Further observers of a trace, and a platform that fails *)

Inductive LockEvent : Type :=
| Acquired (key : string)
| Released (key : string).

Definition lockEvents (tr : list Event) : list LockEvent :=
  omap (fun ev =>
          match ev with
          | Ev (Acquire key) => Some (Acquired key)
          | Ev (Release key) => Some (Released key)
          | Ev _ => None
          end) tr.

(** The paths deleted or created as directories. *)
Definition housekeeping (tr : list Event) : list string :=
  omap (fun ev =>
          match ev with
          | Ev (Delete path) => Some path
          | Ev (MakeDirectory path) => Some path
          | Ev _ => None
          end) tr.

Module Failing.

(** An address no server answers for. *)
Definition goneUrl : string := "https://example.com/gone.jpg".

(** A device whose file system refuses every call. *)
Record Locked : Type := locked { behind : Reference.Device }.

#[export] Instance locked_store : Store Locked := {|
  getInfoAsync path d := Err "EACCES: permission denied";
  makeDirectoryAsync path d := (Err "EACCES: permission denied", d);
  copyAsync from to d := (Err "EACCES: permission denied", d);
  downloadAsync url dest headers d := (Err "EACCES: permission denied", d);
  deleteAsync path d := (Err "EACCES: permission denied", d)
|}.

End Failing.

(** * Verification *)

(** ** Properties of the pure parts *)

Lemma append_empty_r (s : string) : s +:+ "" = s.
Proof.
  induction s as [|c s IH]; [reflexivity|].
  change (String c (s +:+ "") = String c s). by rewrite IH.
Qed.

Lemma append_assoc (a b c : string) : (a +:+ b) +:+ c = a +:+ (b +:+ c).
Proof.
  induction a as [|x a IH]; [reflexivity|].
  change (String x ((a +:+ b) +:+ c) = String x (a +:+ (b +:+ c))). by rewrite IH.
Qed.

Lemma append_inj_l (p a b : string) : p +:+ a = p +:+ b -> a = b.
Proof. apply String.app_inj. Qed.

Lemma list_ascii_of_string_app (a b : string) :
  list_ascii_of_string (a +:+ b) = (list_ascii_of_string a ++ list_ascii_of_string b)%list.
Proof.
  induction a as [|x a IH]; [reflexivity|].
  change (x :: list_ascii_of_string (a +:+ b) =
          x :: (list_ascii_of_string a ++ list_ascii_of_string b)%list).
  by rewrite IH.
Qed.

Lemma append_inj_r (s a b : string) : a +:+ s = b +:+ s -> a = b.
Proof.
  intros H. apply (f_equal list_ascii_of_string) in H.
  rewrite !list_ascii_of_string_app in H. apply app_inv_tail in H.
  by rewrite <- (string_of_list_ascii_of_string a), H, string_of_list_ascii_of_string.
Qed.

Lemma storagePath_inj `{host : Host} (f g : string) :
  storagePath f = storagePath g -> f = g.
Proof. unfold storagePath. intros H. by do 2 apply append_inj_l in H. Qed.

Lemma _getFilename_ext `{host : Host} (name : string) (ft : option FileType) :
  _getFilename name ft = digestStringAsync name +:+ extensionOf ft.
Proof.
  destruct ft as [[]|]; simpl; try reflexivity.
  by rewrite append_empty_r.
Qed.

(** C7: the storage filename is the digest of the name, followed by ".jpg"
    for an image, ".mp4" for a video and nothing when no type is given; equal
    (name, fileType) pairs give equal filenames. *)
Theorem C7_filename_is_digest_with_extension `{host : Host} :
  (forall name, _getFilename name (Some image) = digestStringAsync name +:+ ".jpg") /\
  (forall name, _getFilename name (Some video) = digestStringAsync name +:+ ".mp4") /\
  (forall name, _getFilename name None = digestStringAsync name) /\
  (forall name1 ft1 name2 ft2,
      (name1, ft1) = (name2, ft2) -> _getFilename name1 ft1 = _getFilename name2 ft2).
Proof.
  repeat split; try reflexivity.
  intros name1 ft1 name2 ft2 Heq. by injection Heq as -> ->.
Qed.

Lemma APIHeader_Accept (token : option string) :
  APIHeader token !! "Accept" = Some "application/json".
Proof. unfold APIHeader. destruct (truthy token); reflexivity. Qed.

Lemma APIHeader_ContentType (token : option string) :
  APIHeader token !! "Content-Type" = Some "application/json".
Proof. unfold APIHeader. destruct (truthy token); reflexivity. Qed.

Lemma APIHeader_Authorization (token : option string) :
  APIHeader token !! "Authorization" =
    if truthy token then Some ("Bearer " +:+ default "" token) else None.
Proof.
  unfold APIHeader. destruct (truthy token).
  - apply lookup_insert_eq.
  - reflexivity.
Qed.

Lemma truthy_spec (token : option string) :
  truthy token = true <-> exists t, token = Some t /\ t <> "".
Proof.
  destruct token as [t|]; simpl.
  - rewrite negb_true_iff. split.
    + intros H. exists t. split; [done|]. by apply String.eqb_neq.
    + intros (t' & [= <-] & Hne). by apply String.eqb_neq.
  - split; [done | by intros (? & ? & _)].
Qed.

(** ** Running the hook's functions alone *)

Section SequentialFacts.
Context `{host : Host} {World : Type} `{fs : Store World}.

Lemma run_bind {A B : Type} (m : Prog A) (f : A -> Prog B) (w : World) :
  run (m ≫= f) w =
    match result (run m w) with
    | Ok a =>
        let out := run (f a) (store (run m w)) in
        mkOutcome (result out) (store out) (trace (run m w) ++ trace out)
    | Err e => mkOutcome (Err e) (store (run m w)) (trace (run m w))
    end.
Proof.
  change (m ≫= f) with (bind m f).
  revert w. induction m as [a|e|X o k IH]; intros w; simpl.
  - by destruct (run (f a) w).
  - reflexivity.
  - destruct (perform o w) as [r w']. rewrite IH.
    by destruct (result (run (k r) w')).
Qed.

Lemma run_getCache (name : string) (ft : option FileType) (w : World) :
  run (getCache name ft) w =
    mkOutcome (lookupCache name ft w) w [Ev (GetInfo (storagePath (_getFilename name ft)))].
Proof.
  unfold getCache, lookupCache, storagePath. simpl.
  destruct (getInfoAsync _ w) as [fileInfo|e]; simpl; [|reflexivity].
  by destruct (info_exists fileInfo).
Qed.

Lemma run_try_catch {A : Type} (m : Prog A) (h : Error -> Prog A) (w : World) :
  run (try_catch m h) w =
    match result (run m w) with
    | Ok a => mkOutcome (Ok a) (store (run m w)) (trace (run m w))
    | Err e =>
        let out := run (h e) (store (run m w)) in
        mkOutcome (result out) (store out) (trace (run m w) ++ trace out)
    end.
Proof.
  revert w. induction m as [a|e|X o k IH]; intros w; simpl.
  - reflexivity.
  - by destruct (run (h e) w).
  - destruct (perform o w) as [r w']. rewrite IH.
    by destruct (result (run (k r) w')).
Qed.

Lemma run_adopt {A : Type} (m : Prog (Prog A)) (w : World) :
  run (adopt m) w =
    match result (run m w) with
    | Ok p =>
        let out := run p (store (run m w)) in
        mkOutcome (result out) (store out) (trace (run m w) ++ trace out)
    | Err e => mkOutcome (Err e) (store (run m w)) (trace (run m w))
    end.
Proof.
  revert w. induction m as [p|e|X o k IH]; intros w; simpl.
  - by destruct (run p w).
  - reflexivity.
  - destruct (perform o w) as [r w']. rewrite IH.
    by destruct (result (run (k r) w')).
Qed.

Lemma run_lock_acquire {A : Type} (key : string) (fn : Prog A) (w : World) :
  run (lock_acquire key fn) w =
    mkOutcome (result (run fn w)) (store (run fn w))
      (Ev (Acquire key) :: trace (run fn w) ++ [Ev (Release key)]).
Proof.
  unfold lock_acquire. simpl. f_equal.
  - revert w. induction fn as [a|e|X o k IH]; intros w; simpl; try done.
    destruct (perform o w) as [r w']. apply IH.
  - revert w. induction fn as [a|e|X o k IH]; intros w; simpl; try done.
    destruct (perform o w) as [r w']. apply IH.
  - f_equal. revert w. induction fn as [a|e|X o k IH]; intros w; simpl; try done.
    destruct (perform o w) as [r w']. simpl. f_equal. apply IH.
Qed.

Lemma run_cacheRemoteItem_locked url ft tok filename (w : World) :
  run (_cacheRemoteItem_locked url ft tok filename) w =
    match lookupCache url ft w with
    | Ok None =>
        let dl := downloadAsync url (storagePath filename) (APIHeader tok) w in
        mkOutcome (downloadedUri (fst dl)) (snd dl)
          [Ev (GetInfo (storagePath (_getFilename url ft)));
           Ev (Download url (storagePath filename) (APIHeader tok))]
    | Ok (Some _) =>
        mkOutcome (Ok None) w [Ev (GetInfo (storagePath (_getFilename url ft)))]
    | Err e =>
        mkOutcome (Err e) w [Ev (GetInfo (storagePath (_getFilename url ft)))]
    end.
Proof.
  unfold _cacheRemoteItem_locked. rewrite run_bind, run_getCache. simpl.
  destruct (lookupCache url ft w) as [[entry|]|e]; simpl; try reflexivity.
  unfold storagePath.
  destruct (downloadAsync _ _ _ w) as [[[d|]|e] w']; reflexivity.
Qed.

Lemma run_cacheRemoteItem url options (w : World) :
  let filename := _getFilename (default url (customName options)) (fileType options) in
  let inner :=
    run (_cacheRemoteItem_locked url (fileType options) (authToken options) filename) w in
  run (_cacheRemoteItem url options) w =
    mkOutcome (caught (result inner)) (store inner)
      (Ev (Acquire url) :: trace inner ++ [Ev (Release url)]).
Proof.
  intros filename inner. unfold _cacheRemoteItem.
  rewrite run_try_catch, run_lock_acquire. fold filename. fold inner.
  clearbody inner. cbn [result store trace].
  destruct (result inner); cbn [caught run result store trace mret Prog_ret];
    [reflexivity|].
  by rewrite app_nil_r.
Qed.

Lemma run_cacheLocalItem url options (w : World) :
  let filename := _getFilename (default url (customName options)) (fileType options) in
  let cp := copyAsync url (storagePath filename) w in
  run (_cacheLocalItem url options) w =
    match fst cp with
    | Ok _ =>
        mkOutcome
          (match lookupCache (storagePath filename) (fileType options) (snd cp) with
           | Ok (Some entry) => Ok (Some (uri entry))
           | Ok None => Ok None
           | Err e => Err e
           end)
          (snd cp)
          [Ev (Copy url (storagePath filename));
           Ev (GetInfo (storagePath
                          (_getFilename (storagePath filename) (fileType options))))]
    | Err e => mkOutcome (Err e) (snd cp) [Ev (Copy url (storagePath filename))]
    end.
Proof.
  intros filename cp. subst cp. unfold _cacheLocalItem, lookupCache, storagePath.
  fold filename. simpl.
  destruct (copyAsync url _ w) as [[[]|e] w']; simpl; [|reflexivity].
  destruct (getInfoAsync _ w') as [fileInfo|e]; simpl; [|reflexivity].
  by destruct (info_exists fileInfo).
Qed.

Lemma run_cacheItem url options (w : World) :
  run (cacheItem url options) w =
    match lookupCache url (fileType options) w with
    | Ok (Some entry) =>
        mkOutcome (Ok (Some (uri entry))) w
          [Ev (GetInfo (storagePath (_getFilename url (fileType options))))]
    | Ok None =>
        let out :=
          run (if _isRemoteUrl url then _cacheRemoteItem url options
               else _cacheLocalItem url options) w in
        mkOutcome (result out) (store out)
          (Ev (GetInfo (storagePath (_getFilename url (fileType options)))) :: trace out)
    | Err e =>
        mkOutcome (Ok None) w
          [Ev (GetInfo (storagePath (_getFilename url (fileType options))))]
    end.
Proof.
  unfold cacheItem. rewrite run_adopt, run_try_catch, run_bind, run_getCache. simpl.
  destruct (lookupCache url (fileType options) w) as [[entry|]|e]; simpl; try reflexivity.
  destruct (_isRemoteUrl url); reflexivity.
Qed.

End SequentialFacts.

(** ** The public operations, one call at a time *)

Section Claims.
Context `{host : Host} {World : Type} `{fs : Store World}.

Lemma result_getCache (name : string) (ft : option FileType) (w : World) :
  result (run (getCache name ft) w) = lookupCache name ft w.
Proof. by rewrite run_getCache. Qed.

(** The mount effect swallows whatever goes wrong. *)
Lemma init_never_raises (w : World) : result (run init w) = Ok tt.
Proof.
  unfold init. rewrite run_try_catch, run_bind. simpl.
  destruct (getInfoAsync _ w) as [cacheDir|e]; simpl; [|reflexivity].
  destruct (info_isDirectory cacheDir && info_exists cacheDir); simpl; [reflexivity|].
  by destruct (makeDirectoryAsync _ w) as [[[]|e] w'].
Qed.

(** C6: when [getCache id t] finds an entry, [cacheItem] with that type tag
    returns the entry's uri, issues no download and no copy, and leaves the
    store as it was. *)
Theorem C6_cache_hit_short_circuit (id : string) (options : CacheOptions)
    (w : World) (entry : CacheEntry) :
  result (run (getCache id (fileType options)) w) = Ok (Some entry) ->
  let out := run (cacheItem id options) w in
  result out = Ok (Some (uri entry)) /\
  downloads (trace out) = [] /\
  copies (trace out) = [] /\
  store out = w.
Proof.
  rewrite result_getCache. intros Hhit out. subst out.
  rewrite run_cacheItem, Hhit. by repeat split.
Qed.

(** C5: when the re-check made under the lock finds an entry, the
    remote-fetch procedure resolves with [undefined], not with the entry's
    uri, and issues no download. This holds of the locked callback, started
    in the state the lock is acquired in, and of the whole procedure. *)
Theorem C5_recheck_hit_returns_absent (url : string) (options : CacheOptions)
    (filename : string) (w : World) (entry : CacheEntry) :
  result (run (getCache url (fileType options)) w) = Ok (Some entry) ->
  let inner :=
    run (_cacheRemoteItem_locked url (fileType options) (authToken options) filename) w in
  let out := run (_cacheRemoteItem url options) w in
  (result inner = Ok None /\ downloads (trace inner) = [] /\ store inner = w) /\
  (result out = Ok None /\ result out <> Ok (Some (uri entry)) /\
   downloads (trace out) = [] /\ store out = w).
Proof.
  rewrite result_getCache. intros Hhit inner out. subst inner out.
  rewrite run_cacheRemoteItem, !run_cacheRemoteItem_locked, Hhit.
  by repeat split.
Qed.

(** C1, as amended: with a store on which a successful download leaves at
    its destination a file reported under the uri the download returned, if
    [cacheItem id options] returns a uri [u], and [id] was already cached or
    is remote, then [getCache name (fileType options)] on the resulting store
    finds an entry whose uri is [u], where [name] is [id] after a cache hit
    and [customName ?? id] after a download. *)
Theorem C1_round_trip (id : string) (options : CacheOptions) (w : World) (u : string) :
  let dest :=
    storagePath (_getFilename (default id (customName options)) (fileType options)) in
  let dl := downloadAsync id dest (APIHeader (authToken options)) w in
  let out := run (cacheItem id options) w in
  let name :=
    match result (run (getCache id (fileType options)) w) with
    | Ok (Some _) => id
    | _ => default id (customName options)
    end in
  (forall d, fst dl = Ok (Some d) ->
     exists fileInfo, getInfoAsync dest (snd dl) = Ok fileInfo /\
       info_exists fileInfo = true /\ info_uri fileInfo = dl_uri d) ->
  (_isRemoteUrl id = true \/
   exists entry, result (run (getCache id (fileType options)) w) = Ok (Some entry)) ->
  result out = Ok (Some u) ->
  exists entry,
    result (run (getCache name (fileType options)) (store out)) = Ok (Some entry) /\
    uri entry = u.
Proof.
  intros dest dl out name Hcontract Hpath. subst out name.
  rewrite !result_getCache, run_cacheItem in *.
  destruct (lookupCache id (fileType options) w) as [[entry|]|e] eqn:Hlook; simpl.
  - intros [= <-]. exists entry. by rewrite Hlook.
  - destruct Hpath as [-> | [entry [=]]].
    rewrite run_cacheRemoteItem, run_cacheRemoteItem_locked, Hlook. simpl.
    fold dest. fold dl.
    destruct (fst dl) as [[d|]|e] eqn:Hdl; simpl; try discriminate.
    intros [= <-]. destruct (Hcontract d eq_refl) as (fileInfo & Hinfo & Hex & Huri).
    exists (entryOf fileInfo). unfold lookupCache.
    fold dest. rewrite Hinfo, Hex. by split.
  - discriminate.
Qed.

(** The remote path and the cache-hit path settle without an error. *)
Lemma cacheItem_remote_never_raises (url : string) (options : CacheOptions) (w : World) :
  _isRemoteUrl url = true ->
  exists v, result (run (cacheItem url options) w) = Ok v.
Proof.
  intros Hremote. rewrite run_cacheItem.
  destruct (lookupCache url (fileType options) w) as [[entry|]|e]; simpl; eauto.
  rewrite Hremote, run_cacheRemoteItem. simpl.
  destruct (result _); simpl; eauto.
Qed.

(** C2, where the code departs from it: for a local identifier that is not
    cached, a copy that fails makes [cacheItem] reject with the copy's
    error. The promise of [_cacheLocalItem] is returned without [await], so
    the [catch] of [cacheItem] is not in force when it rejects. *)
Theorem C2_copy_failure_raises (url : string) (options : CacheOptions)
    (w w' : World) (e : Error) :
  let dest :=
    storagePath (_getFilename (default url (customName options)) (fileType options)) in
  result (run (getCache url (fileType options)) w) = Ok None ->
  _isRemoteUrl url = false ->
  copyAsync url dest w = (Err e, w') ->
  result (run (cacheItem url options) w) = Err e.
Proof.
  intros dest. rewrite result_getCache. intros Hmiss Hlocal Hcopy.
  rewrite run_cacheItem, Hmiss, Hlocal, run_cacheLocalItem.
  fold dest. by rewrite Hcopy.
Qed.

(** C4, where the code departs from it: after the copy, the local-copy
    procedure hands the destination path to [getCache], which hashes its
    argument again; the path queried is the one derived from the destination
    path, not the destination. When nothing is stored there the call returns
    [undefined], whatever the copy left at the destination. *)
Theorem C4_local_copy_requeries_hashed_path (url : string) (options : CacheOptions)
    (w w' : World) (fileInfo : FileInfo) :
  let dest :=
    storagePath (_getFilename (default url (customName options)) (fileType options)) in
  let requeried := storagePath (_getFilename dest (fileType options)) in
  let out := run (cacheItem url options) w in
  result (run (getCache url (fileType options)) w) = Ok None ->
  _isRemoteUrl url = false ->
  copyAsync url dest w = (Ok tt, w') ->
  getInfoAsync requeried w' = Ok fileInfo ->
  info_exists fileInfo = false ->
  result out = Ok None /\
  store out = w' /\
  trace out =
    [Ev (GetInfo (storagePath (_getFilename url (fileType options))));
     Ev (Copy url dest);
     Ev (GetInfo requeried)].
Proof.
  intros dest requeried out. subst out. rewrite result_getCache.
  intros Hmiss Hlocal Hcopy Hinfo Habsent.
  rewrite run_cacheItem, Hmiss, Hlocal, run_cacheLocalItem.
  fold dest. rewrite Hcopy. simpl. unfold lookupCache. fold requeried.
  by rewrite Hinfo, Habsent.
Qed.

(** C8, as amended: [clearCache] is one delete of the namespace directory
    and nothing else; it settles as that delete settles, so an error of the
    delete is raised to the caller. *)
Theorem C8_clearCache_is_one_delete (w : World) :
  let deleted := deleteAsync (cacheDirectory +:+ cacheDirName) w in
  run clearCache w =
    mkOutcome (fst deleted) (snd deleted) [Ev (Delete (cacheDirectory +:+ cacheDirName))].
Proof.
  simpl. destruct (deleteAsync _ w) as [[[]|e] w']; reflexivity.
Qed.

(** C9, as amended: for a remote identifier with a [customName] whose digest
    differs from the identifier's, on a store where a download writes nothing
    but its destination: the two existence checks query the path derived from
    the identifier, a path other than the one derived from [customName] that
    the download is written to. So when the identifier's own path holds no
    entry, the call and every identical call after it issue the two checks
    and the download, again and again; when that path does hold an entry, or
    cannot be queried, every such call downloads nothing and leaves the store
    as it is. *)
Theorem C9_customName_calls_download_again (url : string) (options : CacheOptions)
    (name : string) (w : World) :
  let checked := storagePath (_getFilename url (fileType options)) in
  let written := storagePath (_getFilename name (fileType options)) in
  let headers := APIHeader (authToken options) in
  let again := fun w => store (run (cacheItem url options) w) in
  _isRemoteUrl url = true ->
  customName options = Some name ->
  digestStringAsync name <> digestStringAsync url ->
  (forall w' path, path <> written ->
     getInfoAsync path (snd (downloadAsync url written headers w')) = getInfoAsync path w') ->
  checked <> written /\
  forall n,
    let out := run (cacheItem url options) (Nat.iter n again w) in
    match result (run (getCache url (fileType options)) w) with
    | Ok None =>
        queries (trace out) = [checked; checked] /\
        downloads (trace out) = [(url, written, headers)]
    | _ =>
        downloads (trace out) = [] /\ store out = w
    end.
Proof.
  intros checked written headers again Hremote Hname Hdigest Hframe.
  assert (Hpaths : checked <> written).
  { subst checked written. intros Heq%storagePath_inj.
    rewrite !_getFilename_ext in Heq. by apply append_inj_r in Heq. }
  split; [exact Hpaths|].
  assert (Hmiss_run : forall w', lookupCache url (fileType options) w' = Ok None ->
            run (cacheItem url options) w' =
              mkOutcome (caught (downloadedUri (fst (downloadAsync url written headers w'))))
                (snd (downloadAsync url written headers w'))
                [Ev (GetInfo checked); Ev (Acquire url); Ev (GetInfo checked);
                 Ev (Download url written headers); Ev (Release url)]).
  { intros w' Hmiss. rewrite run_cacheItem, Hmiss, Hremote, run_cacheRemoteItem,
      run_cacheRemoteItem_locked, Hmiss, Hname. reflexivity. }
  rewrite result_getCache.
  destruct (lookupCache url (fileType options) w) as [[entry|]|e] eqn:Hlook.
  - (* a hit: the store never changes *)
    assert (Hsame : forall n, Nat.iter n again w = w).
    { induction n as [|n IH]; [reflexivity|]. simpl. rewrite IH. unfold again.
      by rewrite run_cacheItem, Hlook. }
    intros n out. subst out. by rewrite Hsame, run_cacheItem, Hlook.
  - (* a miss: the identifier's path stays absent across every download *)
    assert (Hstays : forall n, lookupCache url (fileType options) (Nat.iter n again w)
                               = Ok None).
    { induction n as [|n IH]; [exact Hlook|]. simpl. unfold again at 1.
      rewrite (Hmiss_run _ IH). unfold lookupCache in *. simpl.
      fold checked in IH |- *. by rewrite (Hframe _ checked Hpaths). }
    intros n out. subst out. by rewrite (Hmiss_run _ (Hstays n)).
  - (* the query fails: the store never changes *)
    assert (Hsame : forall n, Nat.iter n again w = w).
    { induction n as [|n IH]; [reflexivity|]. simpl. rewrite IH. unfold again.
      by rewrite run_cacheItem, Hlook. }
    intros n out. subst out. by rewrite Hsame, run_cacheItem, Hlook.
Qed.

(** C10, as amended: every download the remote-fetch procedure issues carries
    the headers of [APIHeader]: Accept and Content-Type set to
    application/json whatever the options, and Authorization, set to the
    bearer token, exactly when [authToken] is given and is not the empty
    string. *)
Theorem C10_download_headers (url : string) (options : CacheOptions) (w : World)
    (u dest : string) (headers : Headers) :
  (u, dest, headers) ∈ downloads (trace (run (_cacheRemoteItem url options) w)) ->
  headers !! "Accept" = Some "application/json" /\
  headers !! "Content-Type" = Some "application/json" /\
  (is_Some (headers !! "Authorization") <->
     exists token, authToken options = Some token /\ token <> "") /\
  (forall token, authToken options = Some token -> token <> "" ->
     headers !! "Authorization" = Some ("Bearer " +:+ token)).
Proof.
  rewrite run_cacheRemoteItem, run_cacheRemoteItem_locked.
  destruct (lookupCache url (fileType options) w) as [[entry|]|e]; simpl;
    [by intros ?%elem_of_nil | | by intros ?%elem_of_nil].
  intros [= _ _ ->]%list_elem_of_singleton.
  rewrite APIHeader_Accept, APIHeader_ContentType, APIHeader_Authorization.
  repeat split.
  - intros Hsome. apply truthy_spec. by destruct (truthy (authToken options)), Hsome.
  - intros Htoken%truthy_spec. by rewrite Htoken.
  - intros token Htoken Hne.
    assert (Htruthy : truthy (authToken options) = true) by (apply truthy_spec; eauto).
    by rewrite Htruthy, Htoken.
Qed.

End Claims.

(** ** Calls in flight together *)

Section ConcurrentFacts.
Context {World : Type} `{fs : Store World} {A : Type}.
Implicit Types c : Config World A.

Lemma step_successors c c' : step c c' <-> c' ∈ successors c.
Proof.
  unfold step, successors. rewrite list_elem_of_omap. split.
  - intros [i Hi]. exists i. split; [|done].
    apply elem_of_seq. split; [lia|]. simpl.
    unfold step_at in Hi. destruct (cfg_tasks c !! i) eqn:Hlook; [|done].
    by apply lookup_lt_Some in Hlook.
  - intros (i & _ & Hi). by exists i.
Qed.

Lemma nsteps_layer n c c' : nsteps step n c c' <-> c' ∈ layer n c.
Proof.
  revert c'. induction n as [|n IH]; intros c'; simpl.
  - rewrite list_elem_of_singleton. split.
    + by inversion 1.
    + intros ->. constructor.
  - rewrite list_elem_of_bind. split.
    + intros (y & Hy & Hstep)%nsteps_inv_r. exists y.
      split; [by apply step_successors | by apply IH].
    + intros (y & Hstep & Hy). eapply nsteps_r; [by apply IH | by apply step_successors].
Qed.

Lemma layer_exhausted n m c : layer n c = [] -> n <= m -> layer m c = [].
Proof.
  intros Hn Hle. induction Hle as [|m Hle IH]; [done|]. simpl. by rewrite IH.
Qed.

Lemma run_schedule_reaches (schedule : list nat) c : rtc step c (run_schedule schedule c).
Proof.
  revert c. induction schedule as [|i schedule IH]; intros c; simpl; [done|].
  destruct (step_at i c) as [c'|] eqn:Hstep; simpl; [|apply IH].
  eapply rtc_l; [by exists i | apply IH].
Qed.

End ConcurrentFacts.

Section ConcurrentCalls.
Context `{host : Host} {World : Type} `{fs : Store World}.

Local Arguments _getFilename : simpl never.
Local Arguments _isRemoteUrl : simpl never.
Local Arguments APIHeader : simpl never.
Local Arguments cacheDirName : simpl never.

(** Symbolic execution: reduce, and feed in what the store is known to
    answer, until nothing moves. *)
Local Ltac symbolic Hremote Hg0 Hex0 Hd Hg1 Hex1 :=
  repeat (progress
    (cbn; rewrite ?Hremote, ?Hg0, ?Hex0, ?Hd, ?Hg1, ?Hex1, ?String.eqb_refl)).

(** From the configurations [k] steps away to those [k + 1] steps away. *)
Local Ltac further H H' Hremote Hg0 Hex0 Hd Hg1 Hex1 :=
  lazymatch type of H with
  | ?explored ?k ?l =>
      eassert (H' : explored (S k) _);
      [ unfold explored in H |- *; change (layer (S k) ?c) with (layer k c ≫= successors);
        rewrite H; symbolic Hremote Hg0 Hex0 Hd Hg1 Hex1; reflexivity |]
  end.

(** Check each configuration of a layer that has been listed. *)
Local Ltac settle Hin Hremote Hg0 Hex0 Hd Hg1 Hex1 :=
  repeat (apply elem_of_cons in Hin as [-> | Hin]);
  [ .. | by apply elem_of_nil in Hin ];
  (split; [lia|]); (split; [reflexivity|]); (split; [cbn; lia|]);
  (split; intros Hfinished; cbn in Hfinished;
   [ first [discriminate Hfinished | reflexivity]
   | first [ discriminate Hfinished
           | eexists; exists 0; symbolic Hremote Hg0 Hex0 Hd Hg1 Hex1; reflexivity
           | eexists; exists 1; symbolic Hremote Hg0 Hex0 Hd Hg1 Hex1; reflexivity ] ]).

(** C3, as amended: a remote identifier that is not cached, requested twice
    at once with no [customName], on a store where the download succeeds and
    leaves its file at the destination. However the two calls interleave,
    they settle within nine steps without ever being stuck, never copy, and
    between them issue exactly one download. *)
Theorem C3_concurrent_remote_calls_download_once (url : string) (options : CacheOptions)
    (w w1 : World) (absent present : FileInfo) (downloaded : DownloadResult) :
  let dest := storagePath (_getFilename url (fileType options)) in
  let headers := APIHeader (authToken options) in
  customName options = None ->
  _isRemoteUrl url = true ->
  getInfoAsync dest w = Ok absent -> info_exists absent = false ->
  downloadAsync url dest headers w = (Ok (Some downloaded), w1) ->
  getInfoAsync dest w1 = Ok present -> info_exists present = true ->
  forall n c',
    nsteps step n (concurrently [cacheItem url options; cacheItem url options] w) c' ->
    n <= 9 /\
    copies (cfg_trace c') = [] /\
    List.length (downloads (cfg_trace c')) <= 1 /\
    (finished c' = true -> downloads (cfg_trace c') = [(url, dest, headers)]) /\
    (finished c' = false -> exists c'', step c' c'').
Proof.
  destruct options as [name ft tok]. simpl. intros -> Hremote Hg0 Hex0 Hd Hg1 Hex1.
  unfold storagePath in *.
  set (c0 := concurrently _ w).
  pose (explored := fun k l => layer k c0 = l).
  assert (H0 : explored 0 [c0]) by reflexivity.
  subst c0.
  further H0 H1 Hremote Hg0 Hex0 Hd Hg1 Hex1.
  further H1 H2 Hremote Hg0 Hex0 Hd Hg1 Hex1.
  further H2 H3 Hremote Hg0 Hex0 Hd Hg1 Hex1.
  further H3 H4 Hremote Hg0 Hex0 Hd Hg1 Hex1.
  further H4 H5 Hremote Hg0 Hex0 Hd Hg1 Hex1.
  further H5 H6 Hremote Hg0 Hex0 Hd Hg1 Hex1.
  further H6 H7 Hremote Hg0 Hex0 Hd Hg1 Hex1.
  further H7 H8 Hremote Hg0 Hex0 Hd Hg1 Hex1.
  further H8 H9 Hremote Hg0 Hex0 Hd Hg1 Hex1.
  further H9 H10 Hremote Hg0 Hex0 Hd Hg1 Hex1.
  unfold explored in *. clear explored.
  intros n c' Hin%nsteps_layer.
  destruct n as [|n]; [rewrite H0 in Hin; settle Hin Hremote Hg0 Hex0 Hd Hg1 Hex1|].
  destruct n as [|n]; [rewrite H1 in Hin; settle Hin Hremote Hg0 Hex0 Hd Hg1 Hex1|].
  destruct n as [|n]; [rewrite H2 in Hin; settle Hin Hremote Hg0 Hex0 Hd Hg1 Hex1|].
  destruct n as [|n]; [rewrite H3 in Hin; settle Hin Hremote Hg0 Hex0 Hd Hg1 Hex1|].
  destruct n as [|n]; [rewrite H4 in Hin; settle Hin Hremote Hg0 Hex0 Hd Hg1 Hex1|].
  destruct n as [|n]; [rewrite H5 in Hin; settle Hin Hremote Hg0 Hex0 Hd Hg1 Hex1|].
  destruct n as [|n]; [rewrite H6 in Hin; settle Hin Hremote Hg0 Hex0 Hd Hg1 Hex1|].
  destruct n as [|n]; [rewrite H7 in Hin; settle Hin Hremote Hg0 Hex0 Hd Hg1 Hex1|].
  destruct n as [|n]; [rewrite H8 in Hin; settle Hin Hremote Hg0 Hex0 Hd Hg1 Hex1|].
  destruct n as [|n]; [rewrite H9 in Hin; settle Hin Hremote Hg0 Hex0 Hd Hg1 Hex1|].
  rewrite (layer_exhausted 10 (S (S (S (S (S (S (S (S (S (S n)))))))))) _ H10) in Hin
    by lia.
  by apply elem_of_nil in Hin.
Qed.

End ConcurrentCalls.

(** ** Further properties of the hook *)

Lemma append_same_length_inj (a b x y : string) :
  String.length a = String.length b -> a +:+ x = b +:+ y -> a = b /\ x = y.
Proof.
  revert b. induction a as [|c a IH]; intros [|c' b] Hlen Heq; try discriminate.
  - by split.
  - change (String c (a +:+ x) = String c' (b +:+ y)) in Heq.
    injection Heq as -> Heq. injection Hlen as Hlen.
    destruct (IH b Hlen Heq) as [-> ->]. by split.
Qed.

Lemma extensionOf_inj (t1 t2 : option FileType) :
  extensionOf t1 = extensionOf t2 -> t1 = t2.
Proof. by destruct t1 as [[]|], t2 as [[]|]. Qed.

Section MoreSequential.
Context `{host : Host} {World : Type} `{fs : Store World}.

(** X1: the mount effect never raises. It queries the cache directory once,
    and asks for it to be made exactly when the query answers that nothing is
    there or that what is there is no directory; a failure of the query or of
    the creation is swallowed. *)
Theorem X1_init_makes_the_directory_when_missing (w : World) :
  let dir := cacheDirectory +:+ cacheDirName in
  let out := run init w in
  result out = Ok tt /\
  match getInfoAsync dir w with
  | Ok cacheDir =>
      if info_isDirectory cacheDir && info_exists cacheDir
      then trace out = [Ev (GetInfo dir)] /\ store out = w
      else trace out = [Ev (GetInfo dir); Ev (MakeDirectory dir)] /\
           store out = snd (makeDirectoryAsync dir w)
  | Err _ => trace out = [Ev (GetInfo dir)] /\ store out = w
  end.
Proof.
  intros dir out. subst out dir. unfold init. rewrite run_try_catch, run_bind. simpl.
  destruct (getInfoAsync _ w) as [cacheDir|e]; simpl; [|done].
  destruct (info_isDirectory cacheDir && info_exists cacheDir); simpl; [done|].
  by destruct (makeDirectoryAsync _ w) as [[[]|e] w'].
Qed.

(** X2: [getCache] only reads. It issues one existence query, leaves the
    store as it was, rejects exactly when the query rejects, and finds an
    entry exactly when the query reports the file as existing; the entry
    carries the uri, time and size the query reported. *)
Theorem X2_getCache_only_reads (name : string) (ft : option FileType) (w : World) :
  let path := storagePath (_getFilename name ft) in
  let out := run (getCache name ft) w in
  store out = w /\
  trace out = [Ev (GetInfo path)] /\
  (forall e, result out = Err e <-> getInfoAsync path w = Err e) /\
  (forall entry, result out = Ok (Some entry) <->
     exists fileInfo, getInfoAsync path w = Ok fileInfo /\
       info_exists fileInfo = true /\
       entry = mkCacheEntry (info_uri fileInfo) (info_modificationTime fileInfo)
                 (info_size fileInfo)) /\
  (result out = Ok None <->
     exists fileInfo, getInfoAsync path w = Ok fileInfo /\ info_exists fileInfo = false).
Proof.
  intros path out. subst out. rewrite run_getCache. simpl. unfold lookupCache. fold path.
  split; [done|]. split; [done|].
  destruct (getInfoAsync path w) as [fileInfo|e0]; simpl.
  - destruct (info_exists fileInfo) eqn:Hex.
    + split; [by split|]. split.
      * intros entry. split.
        -- intros [= <-]. by exists fileInfo.
        -- intros (fileInfo' & [= <-] & _ & ->). done.
      * split; [done|]. intros (fileInfo' & [= <-] & Habsent). congruence.
    + split; [by split|]. split.
      * intros entry. split; [done|]. intros (fileInfo' & [= <-] & Hpresent & _). congruence.
      * split; [|done]. intros _. by exists fileInfo.
  - split; [intros e; split; congruence|]. split.
    + intros entry. split; [done|]. by intros (fileInfo & ? & _).
    + split; [done|]. by intros (fileInfo & ? & _).
Qed.

(** X3: [cacheItem] rejects in one situation only: the identifier is local,
    it is not in the cache, and the copy, or the query made after the copy,
    rejects; the error is theirs. For a remote identifier, on a cache hit and
    when the first query fails it does not reject. *)
Theorem X3_cacheItem_rejects_only_after_a_local_miss (url : string)
    (options : CacheOptions) (w : World) (e : Error) :
  let dest :=
    storagePath (_getFilename (default url (customName options)) (fileType options)) in
  let requeried := storagePath (_getFilename dest (fileType options)) in
  let cp := copyAsync url dest w in
  result (run (cacheItem url options) w) = Err e <->
    _isRemoteUrl url = false /\
    result (run (getCache url (fileType options)) w) = Ok None /\
    (fst cp = Err e \/ (fst cp = Ok tt /\ getInfoAsync requeried (snd cp) = Err e)).
Proof.
  intros dest requeried cp. rewrite result_getCache, run_cacheItem.
  destruct (lookupCache url (fileType options) w) as [[entry|]|e0]; simpl;
    [by split; [|intros (_ & ? & _)] | | by split; [|intros (_ & ? & _)]].
  destruct (_isRemoteUrl url).
  - rewrite run_cacheRemoteItem. simpl. split; [|by intros (? & _)].
    by destruct (result _).
  - rewrite run_cacheLocalItem. fold dest. fold cp.
    destruct cp as [[[]|e1] w']; simpl.
    + unfold lookupCache. fold requeried.
      destruct (getInfoAsync requeried w') as [fileInfo|e2]; simpl.
      * split; [by destruct (info_exists fileInfo)|].
        intros (_ & _ & [? | [_ ?]]); congruence.
      * split.
        -- intros [= ->]. auto.
        -- intros (_ & _ & [? | [_ ?]]); congruence.
    + split.
      * intros [= ->]. auto.
      * intros (_ & _ & [? | [? _]]); congruence.
Qed.

(** X4: whatever the store does, the remote-fetch procedure takes the lock
    of its identifier once and gives it back at the end, issues at most one
    download, in between, and settles without an error. *)
Theorem X4_remote_fetch_gives_the_lock_back (url : string) (options : CacheOptions)
    (w : World) :
  let out := run (_cacheRemoteItem url options) w in
  (exists middle,
     trace out = Ev (Acquire url) :: middle ++ [Ev (Release url)] /\
     lockEvents middle = [] /\
     List.length (downloads middle) <= 1) /\
  lockEvents (trace out) = [Acquired url; Released url] /\
  copies (trace out) = [] /\
  exists v, result out = Ok v.
Proof.
  intros out. subst out. rewrite run_cacheRemoteItem, run_cacheRemoteItem_locked.
  destruct (lookupCache url (fileType options) w) as [[entry|]|e];
    cbn [trace result store].
  - split; [eexists; split; [reflexivity|]; simpl; split; [done|lia]|].
    simpl. eauto.
  - split; [eexists; split; [reflexivity|]; simpl; split; [done|lia]|].
    simpl. split; [done|]. split; [done|]. destruct (fst _) as [[d|]|e]; simpl; eauto.
  - split; [eexists; split; [reflexivity|]; simpl; split; [done|lia]|].
    simpl. eauto.
Qed.

(** X5: a call of [cacheItem] never deletes anything and never makes a
    directory; it fetches or copies at most once; a remote identifier is never
    copied, and a local one is never downloaded and never touches the lock. *)
Theorem X5_cacheItem_fetches_or_copies_at_most_once (url : string)
    (options : CacheOptions) (w : World) :
  let out := run (cacheItem url options) w in
  housekeeping (trace out) = [] /\
  List.length (downloads (trace out)) + List.length (copies (trace out)) <= 1 /\
  if _isRemoteUrl url
  then copies (trace out) = []
  else downloads (trace out) = [] /\ lockEvents (trace out) = [].
Proof.
  intros out. subst out. rewrite run_cacheItem.
  destruct (lookupCache url (fileType options) w) as [[entry|]|e]; simpl;
    [by destruct (_isRemoteUrl url); repeat split; simpl; try lia | |
     by destruct (_isRemoteUrl url); repeat split; simpl; try lia].
  destruct (_isRemoteUrl url).
  - rewrite run_cacheRemoteItem, run_cacheRemoteItem_locked.
    destruct (lookupCache url (fileType options) w) as [[entry|]|e]; simpl;
      repeat split; lia.
  - rewrite run_cacheLocalItem. destruct (copyAsync _ _ w) as [[[]|e] w']; simpl;
      repeat split; lia.
Qed.

(** X6: when the first existence query rejects, [getCache] on the same name
    rejects with that error, while [cacheItem] catches it: it returns
    [undefined], issues nothing further and leaves the store as it was. *)
Theorem X6_failed_first_query_gives_undefined (url : string) (options : CacheOptions)
    (w : World) (e : Error) :
  let path := storagePath (_getFilename url (fileType options)) in
  getInfoAsync path w = Err e ->
  result (run (getCache url (fileType options)) w) = Err e /\
  run (cacheItem url options) w = mkOutcome (Ok None) w [Ev (GetInfo path)].
Proof.
  intros path Hquery. rewrite result_getCache, run_cacheItem.
  unfold lookupCache. fold path. by rewrite Hquery.
Qed.

(** X7: a local identifier, not cached, called with no [customName], on a
    store where the copy succeeds and leaves its file at the destination.
    Whatever the first call returned, the store it leaves is the one after the
    copy, and the same call made again is a cache hit: it returns the uri of
    the copied file and copies nothing. *)
Theorem X7_local_copy_is_found_by_the_next_call (url : string) (options : CacheOptions)
    (w w1 : World) (copied : FileInfo) :
  let dest := storagePath (_getFilename url (fileType options)) in
  let first := run (cacheItem url options) w in
  let second := run (cacheItem url options) (store first) in
  customName options = None ->
  _isRemoteUrl url = false ->
  result (run (getCache url (fileType options)) w) = Ok None ->
  copyAsync url dest w = (Ok tt, w1) ->
  getInfoAsync dest w1 = Ok copied ->
  info_exists copied = true ->
  store first = w1 /\
  copies (trace first) = [(url, dest)] /\
  result second = Ok (Some (info_uri copied)) /\
  copies (trace second) = [] /\
  store second = w1.
Proof.
  intros dest first second Hname Hlocal Hmiss Hcopy Hinfo Hex.
  rewrite result_getCache in Hmiss.
  assert (Hfirst : store first = w1 /\ copies (trace first) = [(url, dest)]).
  { subst first. rewrite run_cacheItem, Hmiss, Hlocal, run_cacheLocalItem, Hname.
    simpl. fold dest. by rewrite Hcopy. }
  destruct Hfirst as [Hstore Hcopies]. split; [done|]. split; [done|].
  subst second. rewrite Hstore, run_cacheItem. unfold lookupCache. fold dest.
  by rewrite Hinfo, Hex.
Qed.

(** X8: a remote identifier, not cached, called with no [customName], on a
    store where the download succeeds and leaves its file at the destination.
    The first call returns the uri the download resolved with; the same call
    made again is a cache hit that downloads nothing, changes nothing and
    returns the uri under which the store reports the file. *)
Theorem X8_remote_download_is_found_by_the_next_call (url : string)
    (options : CacheOptions) (w w1 : World) (downloaded : DownloadResult)
    (present : FileInfo) :
  let dest := storagePath (_getFilename url (fileType options)) in
  let first := run (cacheItem url options) w in
  let second := run (cacheItem url options) (store first) in
  customName options = None ->
  _isRemoteUrl url = true ->
  result (run (getCache url (fileType options)) w) = Ok None ->
  downloadAsync url dest (APIHeader (authToken options)) w = (Ok (Some downloaded), w1) ->
  getInfoAsync dest w1 = Ok present ->
  info_exists present = true ->
  result first = Ok (Some (dl_uri downloaded)) /\
  store first = w1 /\
  result second = Ok (Some (info_uri present)) /\
  trace second = [Ev (GetInfo dest)] /\
  store second = w1.
Proof.
  intros dest first second Hname Hremote Hmiss Hdl Hinfo Hex.
  rewrite result_getCache in Hmiss.
  assert (Hfirst : result first = Ok (Some (dl_uri downloaded)) /\ store first = w1).
  { subst first. rewrite run_cacheItem, Hmiss, Hremote, run_cacheRemoteItem,
      run_cacheRemoteItem_locked, Hmiss, Hname. simpl. fold dest. by rewrite Hdl. }
  destruct Hfirst as [Hresult Hstore]. split; [done|]. split; [done|].
  subst second. rewrite Hstore, run_cacheItem. unfold lookupCache. fold dest.
  by rewrite Hinfo, Hex.
Qed.

(** X12: a remote identifier that is not cached. [cacheItem] issues, in this
    order, the first query, the acquisition of the lock, the second query,
    the download to the path named after [customName ?? url], and the
    release. It returns the uri the download resolved with, and [undefined]
    when the download resolved with nothing or rejected; the store is the one
    the download left. *)
Theorem X12_remote_miss_downloads_under_the_lock (url : string) (options : CacheOptions)
    (w : World) :
  let checked := storagePath (_getFilename url (fileType options)) in
  let dest :=
    storagePath (_getFilename (default url (customName options)) (fileType options)) in
  let headers := APIHeader (authToken options) in
  let dl := downloadAsync url dest headers w in
  let out := run (cacheItem url options) w in
  _isRemoteUrl url = true ->
  result (run (getCache url (fileType options)) w) = Ok None ->
  trace out =
    [Ev (GetInfo checked); Ev (Acquire url); Ev (GetInfo checked);
     Ev (Download url dest headers); Ev (Release url)] /\
  store out = snd dl /\
  result out =
    Ok match fst dl with
       | Ok (Some downloaded) => Some (dl_uri downloaded)
       | _ => None
       end.
Proof.
  intros checked dest headers dl out Hremote Hmiss. subst out.
  rewrite result_getCache in Hmiss.
  rewrite run_cacheItem, Hmiss, Hremote, run_cacheRemoteItem,
    run_cacheRemoteItem_locked, Hmiss. simpl. fold dest. fold headers. fold dl.
  split; [done|]. split; [done|]. by destruct (fst dl) as [[d|]|e].
Qed.

End MoreSequential.

(** X9: with a digest of fixed length, two (name, type) pairs get the same
    filename, or the same storage path, only when the digests of the names
    coincide and the type tags are equal. An entry stored under one type tag
    is therefore never the one looked up under another. *)
Theorem X9_filename_determines_digest_and_type `{host : Host}
    (name1 name2 : string) (ft1 ft2 : option FileType) :
  String.length (digestStringAsync name1) = String.length (digestStringAsync name2) ->
  storagePath (_getFilename name1 ft1) = storagePath (_getFilename name2 ft2) ->
  digestStringAsync name1 = digestStringAsync name2 /\ ft1 = ft2.
Proof.
  intros Hlen Hpath%storagePath_inj. rewrite !_getFilename_ext in Hpath.
  destruct (append_same_length_inj _ _ _ _ Hlen Hpath) as [Hdigest Hext].
  split; [done | by apply extensionOf_inj].
Qed.

Section ConcurrentOutcomes.
Context `{host : Host} {World : Type} `{fs : Store World}.

Local Arguments _getFilename : simpl never.
Local Arguments _isRemoteUrl : simpl never.
Local Arguments APIHeader : simpl never.
Local Arguments cacheDirName : simpl never.

(** Run the enabled tasks symbolically, with the answers of the store. *)
Local Ltac evaluate Hremote Hg0 Hex0 Hd Hg1 Hex1 :=
  repeat (progress
    (cbn; rewrite ?Hremote, ?Hg0, ?Hex0, ?Hd, ?Hg1, ?Hex1, ?String.eqb_refl)).

(** List the configurations one step after those already listed. *)
Local Ltac advance H H' Hremote Hg0 Hex0 Hd Hg1 Hex1 :=
  lazymatch type of H with
  | ?listed ?k ?l =>
      eassert (H' : listed (S k) _);
      [ unfold listed in H |- *; change (layer (S k) ?c) with (layer k c ≫= successors);
        rewrite H; evaluate Hremote Hg0 Hex0 Hd Hg1 Hex1; reflexivity |]
  end.

(** Go through a listed layer, one configuration at a time. *)
Local Ltac each_of Hin :=
  repeat (apply elem_of_cons in Hin as [-> | Hin]);
  [ .. | by apply elem_of_nil in Hin ].

Local Ltac outcome_of_success Hin :=
  each_of Hin;
  (split; [cbn; auto|]); (split; [cbn; auto|]);
  intros Hfinished; cbn in Hfinished;
  first [ discriminate Hfinished
        | split; [reflexivity|]; split; [reflexivity|]; cbn; auto 6 ].

Local Ltac outcome_of_failure Hin Hremote Hg0 Hex0 Hd Hg1 Hex1 :=
  each_of Hin;
  (split; [lia|]); (split; [cbn; auto|]); (split; [reflexivity|]);
  (split; intros Hfinished; cbn in Hfinished;
   [ first [discriminate Hfinished | by repeat split]
   | first [ discriminate Hfinished
           | eexists; exists 0; evaluate Hremote Hg0 Hex0 Hd Hg1 Hex1; reflexivity
           | eexists; exists 1; evaluate Hremote Hg0 Hex0 Hd Hg1 Hex1; reflexivity ] ]).

(** X10: two calls at once for a remote identifier that is not cached, with
    no [customName], on a store where the download succeeds and leaves its
    file at the destination. However they interleave, at most the key of the
    identifier is held and the store is the initial one or the one after the
    download; when both have settled no key is held, one call has returned
    the uri the download resolved with, and the other has returned either the
    uri the store reports for the file or [undefined]. *)
Theorem X10_concurrent_remote_calls_settle (url : string) (options : CacheOptions)
    (w w1 : World) (absent present : FileInfo) (downloaded : DownloadResult) :
  let dest := storagePath (_getFilename url (fileType options)) in
  let headers := APIHeader (authToken options) in
  let winner : Prog (option string) := Ret (Some (dl_uri downloaded)) in
  let late : Prog (option string) := Ret (Some (info_uri present)) in
  let deferred : Prog (option string) := Ret None in
  customName options = None ->
  _isRemoteUrl url = true ->
  getInfoAsync dest w = Ok absent -> info_exists absent = false ->
  downloadAsync url dest headers w = (Ok (Some downloaded), w1) ->
  getInfoAsync dest w1 = Ok present -> info_exists present = true ->
  forall n c',
    nsteps step n (concurrently [cacheItem url options; cacheItem url options] w) c' ->
    (cfg_held c' = [] \/ cfg_held c' = [url]) /\
    (cfg_store c' = w \/ cfg_store c' = w1) /\
    (finished c' = true ->
       cfg_held c' = [] /\
       cfg_store c' = w1 /\
       (cfg_tasks c' = [winner; late] \/ cfg_tasks c' = [winner; deferred] \/
        cfg_tasks c' = [late; winner] \/ cfg_tasks c' = [deferred; winner])).
Proof.
  destruct options as [name ft tok]. simpl. intros -> Hremote Hg0 Hex0 Hd Hg1 Hex1.
  unfold storagePath in *.
  set (c0 := concurrently _ w).
  pose (listed := fun k l => layer k c0 = l).
  assert (H0 : listed 0 [c0]) by reflexivity.
  subst c0.
  advance H0 H1 Hremote Hg0 Hex0 Hd Hg1 Hex1.
  advance H1 H2 Hremote Hg0 Hex0 Hd Hg1 Hex1.
  advance H2 H3 Hremote Hg0 Hex0 Hd Hg1 Hex1.
  advance H3 H4 Hremote Hg0 Hex0 Hd Hg1 Hex1.
  advance H4 H5 Hremote Hg0 Hex0 Hd Hg1 Hex1.
  advance H5 H6 Hremote Hg0 Hex0 Hd Hg1 Hex1.
  advance H6 H7 Hremote Hg0 Hex0 Hd Hg1 Hex1.
  advance H7 H8 Hremote Hg0 Hex0 Hd Hg1 Hex1.
  advance H8 H9 Hremote Hg0 Hex0 Hd Hg1 Hex1.
  advance H9 H10 Hremote Hg0 Hex0 Hd Hg1 Hex1.
  unfold listed in *. clear listed.
  intros n c' Hin%nsteps_layer.
  destruct n as [|n]; [rewrite H0 in Hin; outcome_of_success Hin|].
  destruct n as [|n]; [rewrite H1 in Hin; outcome_of_success Hin|].
  destruct n as [|n]; [rewrite H2 in Hin; outcome_of_success Hin|].
  destruct n as [|n]; [rewrite H3 in Hin; outcome_of_success Hin|].
  destruct n as [|n]; [rewrite H4 in Hin; outcome_of_success Hin|].
  destruct n as [|n]; [rewrite H5 in Hin; outcome_of_success Hin|].
  destruct n as [|n]; [rewrite H6 in Hin; outcome_of_success Hin|].
  destruct n as [|n]; [rewrite H7 in Hin; outcome_of_success Hin|].
  destruct n as [|n]; [rewrite H8 in Hin; outcome_of_success Hin|].
  destruct n as [|n]; [rewrite H9 in Hin; outcome_of_success Hin|].
  rewrite (layer_exhausted 10 (S (S (S (S (S (S (S (S (S (S n)))))))))) _ H10) in Hin by lia.
  by apply elem_of_nil in Hin.
Qed.

(** X11: two calls at once for a remote identifier that is not cached, on a
    store where the download fails, by rejecting or by resolving with
    nothing, and leaves the store as it was. However they interleave, the
    calls settle within ten steps and are never stuck: the lock is given back
    after the failure, the call that waited downloads in its turn, and in the
    end no key is held, both calls have returned [undefined] and two
    downloads were attempted. *)
Theorem X11_failed_download_is_retried_by_the_waiter (url : string)
    (options : CacheOptions) (w : World) (absent : FileInfo)
    (failure : Result (option DownloadResult)) :
  let checked := storagePath (_getFilename url (fileType options)) in
  let dest :=
    storagePath (_getFilename (default url (customName options)) (fileType options)) in
  let headers := APIHeader (authToken options) in
  _isRemoteUrl url = true ->
  getInfoAsync checked w = Ok absent -> info_exists absent = false ->
  downloadAsync url dest headers w = (failure, w) ->
  (forall downloaded, failure <> Ok (Some downloaded)) ->
  forall n c',
    nsteps step n (concurrently [cacheItem url options; cacheItem url options] w) c' ->
    n <= 10 /\
    (cfg_held c' = [] \/ cfg_held c' = [url]) /\
    cfg_store c' = w /\
    (finished c' = true ->
       cfg_held c' = [] /\
       cfg_tasks c' = [Ret None; Ret None] /\
       downloads (cfg_trace c') = [(url, dest, headers); (url, dest, headers)]) /\
    (finished c' = false -> exists c'', step c' c'').
Proof.
  destruct options as [name ft tok]. simpl.
  intros Hremote Hg0 Hex0 Hd Hfailure.
  unfold storagePath in *.
  assert (Hcases : failure = Ok None \/ exists e, failure = Err e).
  { destruct failure as [[d|]|e]; [by destruct (Hfailure d) | by left | right; by exists e]. }
  clear Hfailure.
  set (c0 := concurrently _ w).
  pose (listed := fun k l => layer k c0 = l).
  assert (H0 : listed 0 [c0]) by reflexivity.
  subst c0.
  pose proof Hg0 as Hg1. pose proof Hex0 as Hex1.
  destruct name as [name|]; destruct Hcases as [-> | [e ->]]; simpl in Hd.
  all: (
  advance H0 H1 Hremote Hg0 Hex0 Hd Hg1 Hex1;
  advance H1 H2 Hremote Hg0 Hex0 Hd Hg1 Hex1;
  advance H2 H3 Hremote Hg0 Hex0 Hd Hg1 Hex1;
  advance H3 H4 Hremote Hg0 Hex0 Hd Hg1 Hex1;
  advance H4 H5 Hremote Hg0 Hex0 Hd Hg1 Hex1;
  advance H5 H6 Hremote Hg0 Hex0 Hd Hg1 Hex1;
  advance H6 H7 Hremote Hg0 Hex0 Hd Hg1 Hex1;
  advance H7 H8 Hremote Hg0 Hex0 Hd Hg1 Hex1;
  advance H8 H9 Hremote Hg0 Hex0 Hd Hg1 Hex1;
  advance H9 H10 Hremote Hg0 Hex0 Hd Hg1 Hex1;
  advance H10 H11 Hremote Hg0 Hex0 Hd Hg1 Hex1;
    unfold listed in *; clear listed;
    intros n c' Hin%nsteps_layer;
    (destruct n as [|n]; [rewrite H0 in Hin; outcome_of_failure Hin Hremote Hg0 Hex0 Hd Hg1 Hex1|]);
    (destruct n as [|n]; [rewrite H1 in Hin; outcome_of_failure Hin Hremote Hg0 Hex0 Hd Hg1 Hex1|]);
    (destruct n as [|n]; [rewrite H2 in Hin; outcome_of_failure Hin Hremote Hg0 Hex0 Hd Hg1 Hex1|]);
    (destruct n as [|n]; [rewrite H3 in Hin; outcome_of_failure Hin Hremote Hg0 Hex0 Hd Hg1 Hex1|]);
    (destruct n as [|n]; [rewrite H4 in Hin; outcome_of_failure Hin Hremote Hg0 Hex0 Hd Hg1 Hex1|]);
    (destruct n as [|n]; [rewrite H5 in Hin; outcome_of_failure Hin Hremote Hg0 Hex0 Hd Hg1 Hex1|]);
    (destruct n as [|n]; [rewrite H6 in Hin; outcome_of_failure Hin Hremote Hg0 Hex0 Hd Hg1 Hex1|]);
    (destruct n as [|n]; [rewrite H7 in Hin; outcome_of_failure Hin Hremote Hg0 Hex0 Hd Hg1 Hex1|]);
    (destruct n as [|n]; [rewrite H8 in Hin; outcome_of_failure Hin Hremote Hg0 Hex0 Hd Hg1 Hex1|]);
    (destruct n as [|n]; [rewrite H9 in Hin; outcome_of_failure Hin Hremote Hg0 Hex0 Hd Hg1 Hex1|]);
    (destruct n as [|n]; [rewrite H10 in Hin; outcome_of_failure Hin Hremote Hg0 Hex0 Hd Hg1 Hex1|]);
    rewrite (layer_exhausted 11 (S (S (S (S (S (S (S (S (S (S (S n))))))))))) _ H11) in Hin by lia;
    by apply elem_of_nil in Hin).
Qed.

End ConcurrentOutcomes.

(** ** The reference platform at work *)

Import Reference.

Example sha256_abc :
  SHA256.digest "abc" = "ba7816bf8f01cfea414140de5dae2223b00361a396177a9cb410ff61f20015ad".
Proof. vm_compute. reflexivity. Qed.

Example sha256_empty :
  SHA256.digest "" = "e3b0c44298fc1c149afbf4c8996fb92427ae41e4649b934ca495991b7852b855".
Proof. vm_compute. reflexivity. Qed.

Example scheme_examples :
  _isRemoteUrl remoteUrl = true /\ _isRemoteUrl localUrl = false /\
  _isRemoteUrl "file:///storage/gallery/photo.jpg" = false /\
  _isRemoteUrl "http://example.com" = true.
Proof. vm_compute. by repeat split. Qed.

Example scheme_case_example : _isRemoteUrl "HTTPS://example.com/a.jpg" = true.
Proof. vm_compute. reflexivity. Qed.

Example filename_examples :
  _getFilename "abc" (Some video)
    = "ba7816bf8f01cfea414140de5dae2223b00361a396177a9cb410ff61f20015ad.mp4" /\
  _getFilename "abc" (fileType noOptions)
    = "ba7816bf8f01cfea414140de5dae2223b00361a396177a9cb410ff61f20015ad".
Proof. vm_compute. by split. Qed.

(** The first scenario of the specification: an image fetched into an empty
    cache is written to the digest of its address with the jpg extension. *)
Example fetch_into_empty_cache :
  let out := run (cacheItem remoteUrl imageOptions) fresh in
  result out =
    Ok (Some ("file:///data/user/0/app/cache/cache/" +:+
              "276a1ac00ba4f0ea47eeeafca24284f41bc78dc593af1f048615aceba44ab9d9.jpg")) /\
  List.length (downloads (trace out)) = 1.
Proof. vm_compute. by split. Qed.

Lemma C7_filename_witness :
  ("a.jpg", Some image) = ("a.jpg", Some image) /\
  _getFilename "a.jpg" (Some image) = _getFilename "a.jpg" (Some image).
Proof.
  split; [reflexivity|].
  exact (proj2 (proj2 (proj2 C7_filename_is_digest_with_extension))
           "a.jpg" (Some image) "a.jpg" (Some image) eq_refl).
Defined.

Lemma C6_cache_hit_witness :
  result (run (getCache remoteUrl (fileType imageOptions)) warmed) = Ok (Some warmedEntry) /\
  (let out := run (cacheItem remoteUrl imageOptions) warmed in
   result out = Ok (Some (uri warmedEntry)) /\
   downloads (trace out) = [] /\
   copies (trace out) = [] /\
   store out = warmed).
Proof.
  assert (Hhit : result (run (getCache remoteUrl (fileType imageOptions)) warmed)
                 = Ok (Some warmedEntry)) by (vm_compute; reflexivity).
  split; [exact Hhit|].
  exact (C6_cache_hit_short_circuit remoteUrl imageOptions warmed warmedEntry Hhit).
Defined.

Lemma C5_recheck_hit_witness :
  result (run (getCache remoteUrl (fileType imageOptions)) warmed) = Ok (Some warmedEntry) /\
  result (run (_cacheRemoteItem remoteUrl imageOptions) warmed) = Ok None /\
  downloads (trace (run (_cacheRemoteItem remoteUrl imageOptions) warmed)) = [].
Proof.
  assert (Hhit : result (run (getCache remoteUrl (fileType imageOptions)) warmed)
                 = Ok (Some warmedEntry)) by (vm_compute; reflexivity).
  split; [exact Hhit|].
  destruct (C5_recheck_hit_returns_absent remoteUrl imageOptions
              (_getFilename remoteUrl (Some image)) warmed warmedEntry Hhit)
    as [_ (Hres & _ & Hdl & _)].
  exact (conj Hres Hdl).
Defined.

(** C1 fails as stated: with a [customName], the uri returned is that of the
    file named after [customName], and [getCache] on the identifier finds
    nothing. *)
Lemma C1_counterexample :
  let out := run (cacheItem remoteUrl namedOptions) fresh in
  ~ (forall u, result out = Ok (Some u) ->
       exists entry,
         result (run (getCache remoteUrl (fileType namedOptions)) (store out))
           = Ok (Some entry) /\
         uri entry = u).
Proof.
  intros out Hclaim.
  assert (Hres : result out = Ok (Some (storagePath (_getFilename "hero" (Some image)))))
    by (vm_compute; reflexivity).
  destruct (Hclaim _ Hres) as (entry & Hentry & _).
  vm_compute in Hentry. discriminate Hentry.
Qed.

Lemma C1_round_trip_witness :
  let u := storagePath (_getFilename "hero" (Some image)) in
  let out := run (cacheItem remoteUrl namedOptions) fresh in
  result out = Ok (Some u) /\
  exists entry,
    result (run (getCache "hero" (fileType namedOptions)) (store out)) = Ok (Some entry) /\
    uri entry = u.
Proof.
  intros u out.
  assert (Hres : result out = Ok (Some u)) by (vm_compute; reflexivity).
  split; [exact Hres|].
  refine (C1_round_trip remoteUrl namedOptions fresh u _ _ Hres).
  - intros d Hd. vm_compute in Hd. injection Hd as <-.
    eexists. vm_compute. by repeat split.
  - left. vm_compute. reflexivity.
Defined.

Lemma C2_copy_failure_witness :
  let dest := storagePath (_getFilename missingUrl (Some image)) in
  let e := "File could not be copied because it could not be found" in
  result (run (getCache missingUrl (fileType imageOptions)) fresh) = Ok None /\
  _isRemoteUrl missingUrl = false /\
  copyAsync missingUrl dest fresh = (Err e, fresh) /\
  result (run (cacheItem missingUrl imageOptions) fresh) = Err e.
Proof.
  intros dest e.
  assert (Hmiss : result (run (getCache missingUrl (fileType imageOptions)) fresh) = Ok None)
    by (vm_compute; reflexivity).
  assert (Hlocal : _isRemoteUrl missingUrl = false) by (vm_compute; reflexivity).
  assert (Hcopy : copyAsync missingUrl dest fresh = (Err e, fresh))
    by (vm_compute; reflexivity).
  split; [exact Hmiss|]. split; [exact Hlocal|]. split; [exact Hcopy|].
  exact (C2_copy_failure_raises missingUrl imageOptions fresh fresh e Hmiss Hlocal Hcopy).
Defined.

Lemma C4_local_copy_witness :
  let dest := storagePath (_getFilename localUrl (Some image)) in
  let requeried := storagePath (_getFilename dest (Some image)) in
  let copied := snd (copyAsync localUrl dest fresh) in
  let out := run (cacheItem localUrl imageOptions) fresh in
  (copyAsync localUrl dest fresh = (Ok tt, copied) /\
   getInfoAsync dest copied = Ok (mkFileInfo true false dest 7 2048) /\
   getInfoAsync requeried copied = Ok (mkFileInfo false false requeried 0 0)) /\
  result out = Ok None /\
  store out = copied /\
  trace out =
    [Ev (GetInfo (storagePath (_getFilename localUrl (Some image))));
     Ev (Copy localUrl dest);
     Ev (GetInfo requeried)].
Proof.
  intros dest requeried copied out.
  assert (Hmiss : result (run (getCache localUrl (fileType imageOptions)) fresh) = Ok None)
    by (vm_compute; reflexivity).
  assert (Hlocal : _isRemoteUrl localUrl = false) by (vm_compute; reflexivity).
  assert (Hcopy : copyAsync localUrl dest fresh = (Ok tt, copied))
    by (vm_compute; reflexivity).
  assert (Hdest : getInfoAsync dest copied = Ok (mkFileInfo true false dest 7 2048))
    by (vm_compute; reflexivity).
  assert (Hinfo : getInfoAsync requeried copied = Ok (mkFileInfo false false requeried 0 0))
    by (vm_compute; reflexivity).
  split; [exact (conj Hcopy (conj Hdest Hinfo))|].
  exact (C4_local_copy_requeries_hashed_path localUrl imageOptions fresh copied
           (mkFileInfo false false requeried 0 0) Hmiss Hlocal Hcopy Hinfo eq_refl).
Defined.

(** C8 fails as stated: on a device without the cache directory the delete
    rejects, and [clearCache] with it. *)
Lemma C8_counterexample :
  getInfoAsync (cacheDirectory +:+ cacheDirName) bare
    = Ok (mkFileInfo false false (cacheDirectory +:+ cacheDirName) 0 0) /\
  result (run clearCache bare)
    = Err "File could not be deleted because it could not be found".
Proof. vm_compute. by split. Qed.

(** On the reference device a download writes its destination only. *)
Lemma device_download_writes_its_destination (url dest : string) (headers : Headers)
    (d : Device) (path : string) :
  path <> dest ->
  getInfoAsync path (snd (downloadAsync url dest headers d)) = getInfoAsync path d.
Proof.
  intros Hne. simpl. destruct (web d !! url) as [len|]; [|reflexivity].
  simpl. unfold infoOf. simpl. by rewrite lookup_insert_ne.
Qed.

(** C9 fails as stated: once the identifier's own path holds an entry, here
    the one an earlier call without [customName] left, the call with a
    [customName] of another digest is a cache hit and downloads nothing. *)
Lemma C9_counterexample :
  let out := run (cacheItem remoteUrl namedOptions) warmed in
  _isRemoteUrl remoteUrl = true /\
  customName namedOptions = Some "hero" /\
  digestStringAsync "hero" <> digestStringAsync remoteUrl /\
  downloads (trace out) = [] /\
  result out = Ok (Some (storagePath (_getFilename remoteUrl (Some image)))).
Proof.
  intros out.
  split; [vm_compute; reflexivity|]. split; [reflexivity|].
  split; [vm_compute; discriminate|].
  split; vm_compute; reflexivity.
Qed.

Lemma C9_customName_witness :
  let checked := storagePath (_getFilename remoteUrl (Some image)) in
  let written := storagePath (_getFilename "hero" (Some image)) in
  let headers := APIHeader (Some "s3cret") in
  let again := fun w => store (run (cacheItem remoteUrl namedOptions) w) in
  (_isRemoteUrl remoteUrl = true /\
   digestStringAsync "hero" <> digestStringAsync remoteUrl /\
   result (run (getCache remoteUrl (fileType namedOptions)) fresh) = Ok None) /\
  checked <> written /\
  forall n,
    let out := run (cacheItem remoteUrl namedOptions) (Nat.iter n again fresh) in
    queries (trace out) = [checked; checked] /\
    downloads (trace out) = [(remoteUrl, written, headers)].
Proof.
  intros checked written headers again.
  assert (Hremote : _isRemoteUrl remoteUrl = true) by (vm_compute; reflexivity).
  assert (Hdigest : digestStringAsync "hero" <> digestStringAsync remoteUrl)
    by (vm_compute; discriminate).
  assert (Hmiss : result (run (getCache remoteUrl (fileType namedOptions)) fresh) = Ok None)
    by (vm_compute; reflexivity).
  split; [exact (conj Hremote (conj Hdigest Hmiss))|].
  destruct (C9_customName_calls_download_again remoteUrl namedOptions "hero" fresh
              Hremote eq_refl Hdigest
              (fun d path => device_download_writes_its_destination
                               remoteUrl written headers d path))
    as [Hpaths Hcalls].
  split; [exact Hpaths|].
  intros n. specialize (Hcalls n). rewrite Hmiss in Hcalls. exact Hcalls.
Defined.

(** C10 fails as stated: an [authToken] that is given but empty adds no
    Authorization header. *)
Lemma C10_counterexample :
  let sent := downloads (trace (run (_cacheRemoteItem remoteUrl emptyTokenOptions) fresh)) in
  authToken emptyTokenOptions = Some "" /\
  ~ (forall u dest headers, (u, dest, headers) ∈ sent ->
       (is_Some (headers !! "Authorization") <-> is_Some (authToken emptyTokenOptions))).
Proof.
  intros sent. split; [reflexivity|]. intros Hclaim.
  assert (Hsent : (remoteUrl, storagePath (_getFilename remoteUrl (Some image)),
                   APIHeader (Some "")) ∈ sent).
  { apply list_elem_of_singleton. vm_compute. reflexivity. }
  apply Hclaim in Hsent. destruct Hsent as [_ Hsome].
  destruct Hsome as [v Hv]; [by eexists|]. vm_compute in Hv. discriminate Hv.
Qed.

Lemma C10_download_headers_witness :
  let dest := storagePath (_getFilename "hero" (Some image)) in
  let headers := APIHeader (Some "s3cret") in
  (remoteUrl, dest, headers)
    ∈ downloads (trace (run (_cacheRemoteItem remoteUrl namedOptions) fresh)) /\
  headers !! "Accept" = Some "application/json" /\
  headers !! "Content-Type" = Some "application/json" /\
  headers !! "Authorization" = Some "Bearer s3cret".
Proof.
  intros dest headers.
  assert (Hsent : (remoteUrl, dest, headers)
            ∈ downloads (trace (run (_cacheRemoteItem remoteUrl namedOptions) fresh))).
  { apply list_elem_of_singleton. vm_compute. reflexivity. }
  split; [exact Hsent|].
  destruct (C10_download_headers remoteUrl namedOptions fresh remoteUrl dest headers Hsent)
    as (Haccept & Hcontent & _ & Hauth).
  refine (conj Haccept (conj Hcontent (Hauth "s3cret" eq_refl _))).
  discriminate.
Defined.

(** C3 fails as stated: the local-copy path takes no lock. When the two
    calls alternate, both miss the cache and both copy. *)
Lemma C3_counterexample :
  let calls := [cacheItem localUrl imageOptions; cacheItem localUrl imageOptions] in
  let dest := storagePath (_getFilename localUrl (Some image)) in
  result (run (getCache localUrl (Some image)) fresh) = Ok None /\
  exists c',
    rtc step (concurrently calls fresh) c' /\
    finished c' = true /\
    copies (cfg_trace c') = [(localUrl, dest); (localUrl, dest)].
Proof.
  intros calls dest. split; [vm_compute; reflexivity|].
  exists (run_schedule [0; 1; 0; 1; 0; 1] (concurrently calls fresh)).
  split; [apply run_schedule_reaches|].
  vm_compute. by split.
Qed.

(** Nor are remote calls with a [customName] deduplicated: the re-check under
    the lock looks at the identifier's own path, which the first download
    did not write. *)
Example concurrent_named_calls_download_twice :
  let calls := [cacheItem remoteUrl namedOptions; cacheItem remoteUrl namedOptions] in
  exists c',
    rtc step (concurrently calls fresh) c' /\
    finished c' = true /\
    List.length (downloads (cfg_trace c')) = 2.
Proof.
  intros calls.
  exists (run_schedule [0; 1; 0; 0; 0; 0; 1; 1; 1; 1] (concurrently calls fresh)).
  split; [apply run_schedule_reaches|].
  vm_compute. by split.
Qed.

Lemma C3_concurrent_remote_witness :
  let dest := storagePath (_getFilename remoteUrl (Some image)) in
  let headers := APIHeader None in
  let calls := [cacheItem remoteUrl imageOptions; cacheItem remoteUrl imageOptions] in
  (_isRemoteUrl remoteUrl = true /\
   getInfoAsync dest fresh = Ok (mkFileInfo false false dest 0 0) /\
   downloadAsync remoteUrl dest headers fresh
     = (Ok (Some (mkDownloadResult dest 200)), warmed) /\
   getInfoAsync dest warmed = Ok (mkFileInfo true false dest 10 4096)) /\
  forall n c',
    nsteps step n (concurrently calls fresh) c' ->
    n <= 9 /\
    copies (cfg_trace c') = [] /\
    List.length (downloads (cfg_trace c')) <= 1 /\
    (finished c' = true -> downloads (cfg_trace c') = [(remoteUrl, dest, headers)]) /\
    (finished c' = false -> exists c'', step c' c'').
Proof.
  intros dest headers calls.
  assert (Hremote : _isRemoteUrl remoteUrl = true) by (vm_compute; reflexivity).
  assert (Hg0 : getInfoAsync dest fresh = Ok (mkFileInfo false false dest 0 0))
    by (vm_compute; reflexivity).
  assert (Hd : downloadAsync remoteUrl dest headers fresh
               = (Ok (Some (mkDownloadResult dest 200)), warmed))
    by (vm_compute; reflexivity).
  assert (Hg1 : getInfoAsync dest warmed = Ok (mkFileInfo true false dest 10 4096))
    by (vm_compute; reflexivity).
  split; [exact (conj Hremote (conj Hg0 (conj Hd Hg1)))|].
  exact (C3_concurrent_remote_calls_download_once remoteUrl imageOptions fresh warmed
           (mkFileInfo false false dest 0 0) (mkFileInfo true false dest 10 4096)
           (mkDownloadResult dest 200) eq_refl Hremote Hg0 eq_refl Hd Hg1 eq_refl).
Defined.

(** ** The further properties on the reference platform *)

Import Failing.

Lemma X3_rejection_witness :
  let e := "File could not be copied because it could not be found" in
  result (run (cacheItem missingUrl imageOptions) fresh) = Err e.
Proof.
  intros e.
  apply (proj2 (X3_cacheItem_rejects_only_after_a_local_miss
                  missingUrl imageOptions fresh e)).
  split; [vm_compute; reflexivity|]. split; [vm_compute; reflexivity|].
  left. vm_compute. reflexivity.
Defined.

Lemma X6_failed_query_witness :
  let path := storagePath (_getFilename remoteUrl (Some image)) in
  let e := "EACCES: permission denied" in
  getInfoAsync path (locked fresh) = Err e /\
  result (run (getCache remoteUrl (fileType imageOptions)) (locked fresh)) = Err e /\
  run (cacheItem remoteUrl imageOptions) (locked fresh)
    = mkOutcome (Ok None) (locked fresh) [Ev (GetInfo path)].
Proof.
  intros path e.
  assert (Hquery : getInfoAsync path (locked fresh) = Err e) by reflexivity.
  split; [exact Hquery|].
  exact (X6_failed_first_query_gives_undefined remoteUrl imageOptions (locked fresh) e
           Hquery).
Defined.

Lemma X7_local_next_call_witness :
  let dest := storagePath (_getFilename localUrl (Some image)) in
  let copied := snd (copyAsync localUrl dest fresh) in
  let first := run (cacheItem localUrl imageOptions) fresh in
  let second := run (cacheItem localUrl imageOptions) (store first) in
  (copyAsync localUrl dest fresh = (Ok tt, copied) /\
   getInfoAsync dest copied = Ok (mkFileInfo true false dest 7 2048)) /\
  store first = copied /\
  copies (trace first) = [(localUrl, dest)] /\
  result second = Ok (Some dest) /\
  copies (trace second) = [] /\
  store second = copied.
Proof.
  intros dest copied first second.
  assert (Hlocal : _isRemoteUrl localUrl = false) by (vm_compute; reflexivity).
  assert (Hmiss : result (run (getCache localUrl (fileType imageOptions)) fresh) = Ok None)
    by (vm_compute; reflexivity).
  assert (Hcopy : copyAsync localUrl dest fresh = (Ok tt, copied))
    by (vm_compute; reflexivity).
  assert (Hinfo : getInfoAsync dest copied = Ok (mkFileInfo true false dest 7 2048))
    by (vm_compute; reflexivity).
  split; [exact (conj Hcopy Hinfo)|].
  exact (X7_local_copy_is_found_by_the_next_call localUrl imageOptions fresh copied
           (mkFileInfo true false dest 7 2048) eq_refl Hlocal Hmiss Hcopy Hinfo eq_refl).
Defined.

Lemma X8_remote_next_call_witness :
  let dest := storagePath (_getFilename remoteUrl (Some image)) in
  let first := run (cacheItem remoteUrl imageOptions) fresh in
  let second := run (cacheItem remoteUrl imageOptions) (store first) in
  (downloadAsync remoteUrl dest (APIHeader None) fresh
     = (Ok (Some (mkDownloadResult dest 200)), warmed) /\
   getInfoAsync dest warmed = Ok (mkFileInfo true false dest 10 4096)) /\
  result first = Ok (Some dest) /\
  store first = warmed /\
  result second = Ok (Some dest) /\
  trace second = [Ev (GetInfo dest)] /\
  store second = warmed.
Proof.
  intros dest first second.
  assert (Hremote : _isRemoteUrl remoteUrl = true) by (vm_compute; reflexivity).
  assert (Hmiss : result (run (getCache remoteUrl (fileType imageOptions)) fresh) = Ok None)
    by (vm_compute; reflexivity).
  assert (Hdl : downloadAsync remoteUrl dest (APIHeader None) fresh
                = (Ok (Some (mkDownloadResult dest 200)), warmed))
    by (vm_compute; reflexivity).
  assert (Hinfo : getInfoAsync dest warmed = Ok (mkFileInfo true false dest 10 4096))
    by (vm_compute; reflexivity).
  split; [exact (conj Hdl Hinfo)|].
  exact (X8_remote_download_is_found_by_the_next_call remoteUrl imageOptions fresh warmed
           (mkDownloadResult dest 200) (mkFileInfo true false dest 10 4096)
           eq_refl Hremote Hmiss Hdl Hinfo eq_refl).
Defined.

Lemma X9_filename_witness :
  String.length (digestStringAsync "hero") = String.length (digestStringAsync "hero") /\
  storagePath (_getFilename "hero" (Some image))
    = storagePath (_getFilename "hero" (Some image)) /\
  digestStringAsync "hero" = digestStringAsync "hero" /\
  Some image = Some image.
Proof.
  split; [reflexivity|]. split; [reflexivity|].
  exact (X9_filename_determines_digest_and_type "hero" "hero" (Some image) (Some image)
           eq_refl eq_refl).
Defined.

(** A video entry and an image entry of one name never share a path. *)
Example image_and_video_paths_differ :
  storagePath (_getFilename "hero" (Some image))
    <> storagePath (_getFilename "hero" (Some video)).
Proof.
  intros Hpath%storagePath_inj. rewrite !_getFilename_ext in Hpath.
  apply append_inj_l in Hpath. discriminate Hpath.
Qed.

Lemma X10_concurrent_settle_witness :
  let dest := storagePath (_getFilename remoteUrl (Some image)) in
  let calls := [cacheItem remoteUrl imageOptions; cacheItem remoteUrl imageOptions] in
  let winner : Prog (option string) := Ret (Some dest) in
  let deferred : Prog (option string) := Ret None in
  (_isRemoteUrl remoteUrl = true /\
   getInfoAsync dest fresh = Ok (mkFileInfo false false dest 0 0) /\
   downloadAsync remoteUrl dest (APIHeader None) fresh
     = (Ok (Some (mkDownloadResult dest 200)), warmed) /\
   getInfoAsync dest warmed = Ok (mkFileInfo true false dest 10 4096)) /\
  forall n c',
    nsteps step n (concurrently calls fresh) c' ->
    (cfg_held c' = [] \/ cfg_held c' = [remoteUrl]) /\
    (cfg_store c' = fresh \/ cfg_store c' = warmed) /\
    (finished c' = true ->
       cfg_held c' = [] /\
       cfg_store c' = warmed /\
       (cfg_tasks c' = [winner; winner] \/ cfg_tasks c' = [winner; deferred] \/
        cfg_tasks c' = [winner; winner] \/ cfg_tasks c' = [deferred; winner])).
Proof.
  intros dest calls winner deferred.
  assert (Hremote : _isRemoteUrl remoteUrl = true) by (vm_compute; reflexivity).
  assert (Hg0 : getInfoAsync dest fresh = Ok (mkFileInfo false false dest 0 0))
    by (vm_compute; reflexivity).
  assert (Hd : downloadAsync remoteUrl dest (APIHeader None) fresh
               = (Ok (Some (mkDownloadResult dest 200)), warmed))
    by (vm_compute; reflexivity).
  assert (Hg1 : getInfoAsync dest warmed = Ok (mkFileInfo true false dest 10 4096))
    by (vm_compute; reflexivity).
  split; [exact (conj Hremote (conj Hg0 (conj Hd Hg1)))|].
  exact (X10_concurrent_remote_calls_settle remoteUrl imageOptions fresh warmed
           (mkFileInfo false false dest 0 0) (mkFileInfo true false dest 10 4096)
           (mkDownloadResult dest 200) eq_refl Hremote Hg0 eq_refl Hd Hg1 eq_refl).
Defined.

Lemma X11_failed_download_witness :
  let checked := storagePath (_getFilename goneUrl (Some image)) in
  let dest := storagePath (_getFilename "hero" (Some image)) in
  let headers := APIHeader (Some "s3cret") in
  let calls := [cacheItem goneUrl namedOptions; cacheItem goneUrl namedOptions] in
  (_isRemoteUrl goneUrl = true /\
   getInfoAsync checked fresh = Ok (mkFileInfo false false checked 0 0) /\
   downloadAsync goneUrl dest headers fresh = (Err "Unable to resolve host", fresh)) /\
  forall n c',
    nsteps step n (concurrently calls fresh) c' ->
    n <= 10 /\
    (cfg_held c' = [] \/ cfg_held c' = [goneUrl]) /\
    cfg_store c' = fresh /\
    (finished c' = true ->
       cfg_held c' = [] /\
       cfg_tasks c' = [Ret None; Ret None] /\
       downloads (cfg_trace c') = [(goneUrl, dest, headers); (goneUrl, dest, headers)]) /\
    (finished c' = false -> exists c'', step c' c'').
Proof.
  intros checked dest headers calls.
  assert (Hremote : _isRemoteUrl goneUrl = true) by (vm_compute; reflexivity).
  assert (Hg0 : getInfoAsync checked fresh = Ok (mkFileInfo false false checked 0 0))
    by (vm_compute; reflexivity).
  assert (Hd : downloadAsync goneUrl dest headers fresh
               = (Err "Unable to resolve host", fresh))
    by (vm_compute; reflexivity).
  split; [exact (conj Hremote (conj Hg0 Hd))|].
  refine (X11_failed_download_is_retried_by_the_waiter goneUrl namedOptions fresh
            (mkFileInfo false false checked 0 0) (Err "Unable to resolve host")
            Hremote Hg0 eq_refl Hd _).
  intros downloaded. discriminate.
Defined.

Lemma X12_remote_miss_witness :
  let checked := storagePath (_getFilename remoteUrl (Some image)) in
  let dest := storagePath (_getFilename "hero" (Some image)) in
  let headers := APIHeader (Some "s3cret") in
  let out := run (cacheItem remoteUrl namedOptions) fresh in
  (_isRemoteUrl remoteUrl = true /\
   result (run (getCache remoteUrl (fileType namedOptions)) fresh) = Ok None) /\
  trace out =
    [Ev (GetInfo checked); Ev (Acquire remoteUrl); Ev (GetInfo checked);
     Ev (Download remoteUrl dest headers); Ev (Release remoteUrl)] /\
  result out = Ok (Some dest).
Proof.
  intros checked dest headers out.
  assert (Hremote : _isRemoteUrl remoteUrl = true) by (vm_compute; reflexivity).
  assert (Hmiss : result (run (getCache remoteUrl (fileType namedOptions)) fresh) = Ok None)
    by (vm_compute; reflexivity).
  split; [exact (conj Hremote Hmiss)|].
  destruct (X12_remote_miss_downloads_under_the_lock remoteUrl namedOptions fresh
              Hremote Hmiss) as (Htrace & _ & Hresult).
  split; [exact Htrace|].
  etransitivity; [exact Hresult|]. vm_compute. reflexivity.
Defined.
